(** * TaskTide: the timer reducer, its persistence loader and the duration
      handlers of [src/Timer.tsx], embedded in Rocq.

    Modelling conventions.
    - A JavaScript [number] the timer computes with is a [Z]: minutes,
      seconds, counters and [Date.now()] are integers as long as the
      durations are set through the inputs, and on integers of magnitude
      up to 2^53 ([max_exact]) the double arithmetic of JavaScript is
      exact.  The typed records therefore speak of integer states only,
      and a property that needs the arithmetic to be the code's carries
      the bound as a hypothesis.  [parseInt] returns [None] for [NaN].
    - A number read from storage is a [number], which also has the
      fractions and the infinities.  The mount effect hands it on
      unchecked; what a fraction does to the countdown is followed on
      rationals ([reset_seconds], [tick_seconds]).
    - A JavaScript string is a [string] of bytes (its UTF-8 encoding).
    - The reducer reads the clock and the random generator when it builds
      a log entry; those readings are the [Env] argument of the reducer.
    - A [throw] is the [Throw] outcome of the [Exc] monad; [try]/[catch]
      is [catch]. *)

From stdpp Require Import base gmap strings list pretty.
From Stdlib Require Import ZArith Lia Ascii QArith Qcanon.

#[local] Open Scope Z_scope.
#[local] Set Warnings "-register-all".

(** ** JavaScript primitives used by the source *)

Module JS.

(** [String(n)] for an integer [n] of magnitude below 10^21, where the
    code prints all the digits (from 10^21 on it prints the exponent
    form; the digits are those of [n] itself up to 2^53). *)
Definition String (n : Z) : string := pretty n.

(** [s.padStart(n, c)] for a one-character pad string [c]. *)
Definition padStart (n : nat) (c : ascii) (s : string) : string :=
  String.string_of_list_ascii (replicate (n - String.length s) c) +:+ s.

(** [Math.floor(a / b)] on integers, for a positive divisor. *)
Definition floor_div (a b : Z) : Z := a `div` b.

(** [a % b]: the remainder takes the sign of the dividend. *)
Definition modulo (a b : Z) : Z := a `rem` b.

(** [Math.max(a, b)]. *)
Definition Math_max (a b : Z) : Z := Z.max a b.

End JS.

(** ** Data model (lines 5-39) *)

Inductive SessionType : Type := Work | Break.

#[global] Instance SessionType_eq_dec : EqDecision SessionType.
Proof. solve_decision. Defined.

Module SessionLog.
Record t : Type := mk {
  id : string;
  type : SessionType;
  duration : string;
  time : string;
}.
End SessionLog.

(** The timer state with an integer countdown and integer counters.  The
    code's [secondsLeft] is a number: it is an integer whenever the work
    duration it was reset from is one, and exact up to 2^53. *)
Record TimerState : Type := mkTimerState {
  secondsLeft : Z;
  isRunning : bool;
  isBreak : bool;
  message : string;
  workSessions : Z;
  breakSessions : Z;
  sessionLog : list SessionLog.t;
}.

Inductive TimerAction : Type :=
  | TICK
  | PHASE_TRANSITION (workMinutes breakMinutes : Z) (autoStart : bool)
  | TOGGLE_TIMER (isBreak : bool)
  | STOP
  | RESET (workMinutes : Z)
  | RESET_HISTORY
  | INIT_STATE (workSessions breakSessions : Z)
               (sessionLog : list SessionLog.t).

(** What the reducer reads from its surroundings while it builds a log
    entry: [Date.now()], the printed form of [Math.random()], and the
    string [new Date().toLocaleTimeString("en-US", ...)]. *)
Record Env : Type := mkEnv {
  Date_now : Z;
  Math_random : string;
  toLocaleTimeString : string;
}.

(** ** [formatTime] (lines 160-164)

    On integers up to 2^53 in magnitude, where the code's division and
    remainder are exact. *)

Definition formatTime (totalSeconds : Z) : string :=
  let m := JS.padStart 2 "0" (JS.String (JS.floor_div totalSeconds 60)) in
  let s := JS.padStart 2 "0" (JS.String (JS.modulo totalSeconds 60)) in
  m +:+ ":" +:+ s.

(** ** The messages shown in the header, as the bytes of the source file *)

Definition msg_break_party : string := "Break time! ðŸŽ‰".
Definition msg_back_to_work : string := "Back to work! ðŸ’ª".
Definition msg_break_coffee : string := "Break time! â˜•".
Definition msg_focus : string := "Focus time! ðŸ§ ".

(** ** [timerReducer] (lines 41-111) *)

(** The entry logged for the phase that ends in state [state]. *)
Definition newEntry (env : Env) (state : TimerState)
    (workMinutes breakMinutes : Z) : SessionLog.t :=
  {| SessionLog.id := JS.String (Date_now env) +:+ "-" +:+ Math_random env;
     SessionLog.type := if isBreak state then Break else Work;
     SessionLog.duration :=
       formatTime (if isBreak state then breakMinutes * 60
                   else workMinutes * 60);
     SessionLog.time := toLocaleTimeString env |}.

Definition timerReducer (env : Env) (state : TimerState)
    (action : TimerAction) : TimerState :=
  match action with
  | TICK =>
      {| secondsLeft :=
           if 0 <? secondsLeft state then secondsLeft state - 1 else 0;
         isRunning := isRunning state;
         isBreak := isBreak state;
         message := message state;
         workSessions := workSessions state;
         breakSessions := breakSessions state;
         sessionLog := sessionLog state |}
  | PHASE_TRANSITION workMinutes breakMinutes autoStart =>
      let currentPhase := if isBreak state then Break else Work in
      let nextPhase := negb (isBreak state) in
      let newSecondsLeft :=
        (if nextPhase then breakMinutes else workMinutes) * 60 in
      {| secondsLeft := newSecondsLeft;
         isBreak := nextPhase;
         isRunning := if nextPhase then true else autoStart;
         message := if nextPhase then msg_break_party else msg_back_to_work;
         workSessions :=
           if decide (currentPhase = Work) then workSessions state + 1
           else workSessions state;
         breakSessions :=
           if decide (currentPhase = Break) then breakSessions state + 1
           else breakSessions state;
         sessionLog :=
           newEntry env state workMinutes breakMinutes
             :: take 49 (sessionLog state) |}
  | TOGGLE_TIMER isBreak' =>
      {| secondsLeft := secondsLeft state;
         isRunning := negb (isRunning state);
         isBreak := isBreak state;
         message := if isBreak' then msg_break_coffee else msg_focus;
         workSessions := workSessions state;
         breakSessions := breakSessions state;
         sessionLog := sessionLog state |}
  | STOP =>
      {| secondsLeft := secondsLeft state;
         isRunning := false;
         isBreak := isBreak state;
         message := message state;
         workSessions := workSessions state;
         breakSessions := breakSessions state;
         sessionLog := sessionLog state |}
  | RESET workMinutes =>
      {| secondsLeft := workMinutes * 60;
         isRunning := false;
         isBreak := false;
         message := msg_focus;
         workSessions := workSessions state;
         breakSessions := breakSessions state;
         sessionLog := sessionLog state |}
  | RESET_HISTORY =>
      {| secondsLeft := secondsLeft state;
         isRunning := isRunning state;
         isBreak := isBreak state;
         message := message state;
         workSessions := 0;
         breakSessions := 0;
         sessionLog := [] |}
  | INIT_STATE workSessions' breakSessions' sessionLog' =>
      {| secondsLeft := secondsLeft state;
         isRunning := isRunning state;
         isBreak := isBreak state;
         message := message state;
         workSessions := workSessions';
         breakSessions := breakSessions';
         sessionLog := sessionLog' |}
  end.

(** The state [useReducer] starts from (lines 177-185). *)
Definition initialState : TimerState :=
  {| secondsLeft := 25 * 60;
     isRunning := false;
     isBreak := false;
     message := msg_focus;
     workSessions := 0;
     breakSessions := 0;
     sessionLog := [] |}.

(** ** Runs of the reducer *)

(** One dispatched action together with the readings the reducer takes
    while it handles it. *)
Definition step (s : TimerState) (ev : Env * TimerAction) : TimerState :=
  timerReducer ev.1 s ev.2.

Definition run (s : TimerState) (evs : list (Env * TimerAction))
  : TimerState :=
  foldl step s evs.

(** The uncapped history of a run, newest entry first: every phase
    transition puts its entry in front, a history reset empties it, and
    [INIT_STATE] replaces it by the loaded log. *)
Definition history_step (sh : TimerState * list SessionLog.t)
    (ev : Env * TimerAction) : TimerState * list SessionLog.t :=
  (step sh.1 ev,
   match ev.2 with
   | PHASE_TRANSITION workMinutes breakMinutes _ =>
       newEntry ev.1 sh.1 workMinutes breakMinutes :: sh.2
   | RESET_HISTORY => []
   | INIT_STATE _ _ log => log
   | _ => sh.2
   end).

Definition history_from (s : TimerState) (h : list SessionLog.t)
    (evs : list (Env * TimerAction)) : list SessionLog.t :=
  (foldl history_step (s, h) evs).2.

Definition history (evs : list (Env * TimerAction)) : list SessionLog.t :=
  history_from initialState [] evs.

(** Every log handed to [INIT_STATE] during the run has at most 50
    entries. *)
Definition init_log_bounded (ev : Env * TimerAction) : Prop :=
  match ev.2 with
  | INIT_STATE _ _ log => (length log ≤ 50)%nat
  | _ => True
  end.

(** ** Exceptions *)

Inductive Exc (A : Type) : Type :=
  | Return (a : A)
  | Throw.
Arguments Return {A} a.
Arguments Throw {A}.

#[global] Instance Exc_ret : MRet Exc := λ A a, Return a.
#[global] Instance Exc_bind : MBind Exc := λ A B f m,
  match m with
  | Return a => f a
  | Throw => Throw
  end.

(** [try { body } catch { return handler }]. *)
Definition catch {A : Type} (body : Exc A) (handler : A) : A :=
  match body with
  | Return a => a
  | Throw => handler
  end.

(** ** JSON values, as [JSON.parse] produces them *)

(** The numbers [JSON.parse] can produce: a finite double, which is a
    rational, or an infinity (from a literal too large for a double). *)
Inductive number : Type :=
  | Finite (q : Qc)
  | Infinite (positive : bool).

Definition number_of_Z (n : Z) : number := Finite (Qc_of_Z n).

(** The integer a number is, when it is one. *)
Definition number_to_Z (x : number) : option Z :=
  match x with
  | Finite q => if Z.pos (Qden q) =? 1 then Some (Qnum q) else None
  | Infinite _ => None
  end.

Definition number_is_zero (x : number) : bool :=
  match x with
  | Finite q => bool_decide (q = Qc_of_Z 0)
  | Infinite _ => false
  end.

Inductive json : Type :=
  | JNull
  | JBool (b : bool)
  | JNum (x : number)
  | JStr (s : string)
  | JArr (l : list json)
  | JObj (m : gmap string json).

(** [ToBoolean]. *)
Definition truthy (v : json) : bool :=
  match v with
  | JNull => false
  | JBool b => b
  | JNum x => negb (number_is_zero x)
  | JStr s => negb (String.eqb s "")
  | JArr _ | JObj _ => true
  end.

(** [v.k] for the property names this program reads ([id], [type],
    [duration], [time]): none of them is defined on a prototype, so on a
    primitive or an array the read gives [undefined] ([None]); on [null]
    it throws a [TypeError]. *)
Definition getProp (v : json) (k : string) : Exc (option json) :=
  match v with
  | JNull => Throw
  | JObj m => Return (m !! k)
  | _ => Return None
  end.

(** [typeof x === "string"]. *)
Definition typeof_string (x : option json) : bool :=
  match x with
  | Some (JStr _) => true
  | _ => false
  end.

(** [names.includes(x)] for an array [names] of strings. *)
Definition includes (names : list string) (x : option json) : bool :=
  match x with
  | Some (JStr s) => bool_decide (s ∈ names)
  | _ => false
  end.

(** [Array.prototype.every]: stops at the first entry the callback
    rejects; an exception of the callback propagates. *)
Fixpoint every (f : json → Exc bool) (l : list json) : Exc bool :=
  match l with
  | [] => Return true
  | x :: l' => b ← f x; if b : bool then every f l' else Return false
  end.

(** The callback of lines 128-133. *)
Definition validEntry (entry : json) : Exc bool :=
  if negb (truthy entry) then Return false else
  id ← getProp entry "id";
  if negb (typeof_string id) then Return false else
  type ← getProp entry "type";
  if negb (includes ["Work"; "Break"] type) then Return false else
  duration ← getProp entry "duration";
  if negb (typeof_string duration) then Return false else
  time ← getProp entry "time";
  Return (typeof_string time).

(** ** [localStorage] and [getLocalStorage] (lines 113-146) *)

(** The store of the page: its items, and whether the page may touch it
    at all ([getItem] throws a [SecurityError] when it may not). *)
Record Storage : Type := mkStorage {
  accessible : bool;
  items : gmap string string;
}.

Definition getItem (localStorage : Storage) (key : string)
  : Exc (option string) :=
  if accessible localStorage then Return (items localStorage !! key)
  else Throw.

Section Loader.

(** [JSON.parse]; [Throw] is its [SyntaxError]. *)
Variable JSON_parse : string → Exc json.
Variable localStorage : Storage.

(** The body of the [try] block.  [!item] holds for [null] (no such
    key) and for the empty string. *)
Definition getLocalStorage_try (key : string) (fallback : json)
  : Exc json :=
  item ← getItem localStorage key;
  match item with
  | None => Return fallback
  | Some item =>
      if String.eqb item "" then Return fallback else
      parsed ← JSON_parse item;
      if String.eqb key "sessionLog" then
        match parsed with
        | JArr entries =>
            ok ← every validEntry entries;
            if negb ok then Return fallback else Return parsed
        | _ => Return fallback
        end
      else Return parsed
  end.

Definition getLocalStorage (key : string) (fallback : json) : json :=
  catch (getLocalStorage_try key fallback) fallback.

End Loader.

(** ** The component (lines 166-236, 450-464) *)

(** The part of the component's state the timer logic reads and writes:
    the [useState] cells of the configuration and the reducer's state.
    (Menu, modal, theme and fullscreen flags only drive the rendering.) *)
Record Component : Type := mkComponent {
  workMinutes : Z;
  breakMinutes : Z;
  workInput : string;
  breakInput : string;
  autoStart : bool;
  state : TimerState;
}.

(** The component before its mount effect has run. *)
Definition initialComponent : Component :=
  {| workMinutes := 25;
     breakMinutes := 5;
     workInput := "25";
     breakInput := "5";
     autoStart := false;
     state := initialState |}.

(** *** [parseInt] *)

Definition bytes (s : string) : list Z :=
  (λ c, Z.of_nat (nat_of_ascii c)) <$> String.list_ascii_of_string s.

(** Leading white space and line terminators, in UTF-8. *)
Fixpoint trimStart (l : list Z) : list Z :=
  match l with
  | 9 :: r | 10 :: r | 11 :: r | 12 :: r | 13 :: r | 32 :: r => trimStart r
  | 194 :: 160 :: r => trimStart r
  | 225 :: 154 :: 128 :: r => trimStart r
  | 226 :: 128 :: c :: r =>
      if (128 <=? c) && (c <=? 138) || (c =? 168) || (c =? 169) || (c =? 175)
      then trimStart r else l
  | 226 :: 129 :: 159 :: r => trimStart r
  | 227 :: 128 :: 128 :: r => trimStart r
  | 239 :: 187 :: 191 :: r => trimStart r
  | _ => l
  end.

Definition digitValue (radix c : Z) : option Z :=
  let d :=
    if (48 <=? c) && (c <=? 57) then Some (c - 48)
    else if (97 <=? c) && (c <=? 122) then Some (c - 87)
    else if (65 <=? c) && (c <=? 90) then Some (c - 55)
    else None in
  d ≫= λ v, if v <? radix then Some v else None.

(** The value of the longest prefix of radix-[radix] digits; [None] when
    that prefix is empty. *)
Fixpoint digits (radix : Z) (acc : option Z) (l : list Z) : option Z :=
  match l with
  | [] => acc
  | c :: r =>
      match digitValue radix c with
      | Some d => digits radix (Some (radix * default 0 acc + d)) r
      | None => acc
      end
  end.

(** [parseInt(s)] without a radix; [None] is [NaN]. *)
Definition parseInt (s : string) : option Z :=
  let input := trimStart (bytes s) in
  let '(sign, input) :=
    match input with
    | 45 :: r => (-1, r)
    | 43 :: r => (1, r)
    | _ => (1, input)
    end in
  let '(radix, input) :=
    match input with
    | 48 :: 120 :: r | 48 :: 88 :: r => (16, r)
    | _ => (10, input)
    end in
  (λ n, sign * n) <$> digits radix None input.

(** [x || 1] for a number [x]: [NaN] and [0] are falsy. *)
Definition or_1 (x : option Z) : Z :=
  match x with
  | Some n => if n =? 0 then 1 else n
  | None => 1
  end.

(** *** The blur handlers of the two duration inputs *)

Definition handleWorkInputBlur (env : Env) (c : Component) : Component :=
  let val := JS.Math_max 1 (or_1 (parseInt (workInput c))) in
  {| workMinutes := val;
     breakMinutes := breakMinutes c;
     workInput := JS.String val;
     breakInput := breakInput c;
     autoStart := autoStart c;
     state :=
       if negb (isBreak (state c)) && negb (isRunning (state c))
       then timerReducer env (state c) (RESET val)
       else state c |}.

Definition handleBreakInputBlur (env : Env) (c : Component) : Component :=
  let val := JS.Math_max 1 (or_1 (parseInt (breakInput c))) in
  {| workMinutes := workMinutes c;
     breakMinutes := val;
     workInput := workInput c;
     breakInput := JS.String val;
     autoStart := autoStart c;
     state :=
       if isBreak (state c) && negb (isRunning (state c))
       then timerReducer env (state c) (RESET (workMinutes c))
       else state c |}.

(** *** The mount effect (lines 199-219) *)

(** [getLocalStorage<T>] hands the parsed value back at the type [T] of
    its fallback without looking at it.  The cells of [Component] hold
    integers, booleans and logs; these are the views of a loaded value
    as one of those.  A stored number that is not an integer has no view
    here, although the code goes on with it. *)
Definition asNumber (v : json) : option Z :=
  match v with
  | JNum x => number_to_Z x
  | _ => None
  end.

Definition asBoolean (v : json) : option bool :=
  match v with
  | JBool b => Some b
  | _ => None
  end.

Definition asSessionType (s : string) : option SessionType :=
  if String.eqb s "Work" then Some Work
  else if String.eqb s "Break" then Some Break
  else None.

Definition asSessionLog (v : json) : option SessionLog.t :=
  match v with
  | JObj m =>
      match m !! "id", m !! "type", m !! "duration", m !! "time" with
      | Some (JStr id), Some (JStr type), Some (JStr duration),
        Some (JStr time) =>
          type ← asSessionType type;
          Some (SessionLog.mk id type duration time)
      | _, _, _, _ => None
      end
  | _ => None
  end.

Definition asSessionLogs (v : json) : option (list SessionLog.t) :=
  match v with
  | JArr l => mapM asSessionLog l
  | _ => None
  end.

Section Mount.

Variable JSON_parse : string → Exc json.
Variable localStorage : Storage.

Let load := getLocalStorage JSON_parse localStorage.

(** [None]: a stored value is not an integer, a boolean or a log where
    the cell holds one; the code goes on with it all the same, the
    integer-typed component cannot. *)
Definition initializeFromLocalStorage (env : Env) (c : Component)
  : option Component :=
  work ← asNumber (load "workMinutes" (JNum (number_of_Z 25)));
  brk ← asNumber (load "breakMinutes" (JNum (number_of_Z 5)));
  auto ← asBoolean (load "autoStart" (JBool false));
  workS ← asNumber (load "workSessions" (JNum (number_of_Z 0)));
  breakS ← asNumber (load "breakSessions" (JNum (number_of_Z 0)));
  log ← asSessionLogs (load "sessionLog" (JArr []));
  Some {| workMinutes := work;
          breakMinutes := brk;
          workInput := JS.String work;
          breakInput := JS.String brk;
          autoStart := auto;
          state :=
            timerReducer env
              (timerReducer env (state c) (RESET work))
              (INIT_STATE workS breakS log) |}.

End Mount.

(** ** Well-formed stored logs, in the words of the storage layout

    A stored log is a sequence of entries, each an object with the four
    fields [id], [type], [duration] and [time]: [type] is one of the two
    session kinds and the other three are strings. *)

Definition has_string_field (m : gmap string json) (k : string) : Prop :=
  ∃ s, m !! k = Some (JStr s).

Definition well_formed_entry (entry : json) : Prop :=
  ∃ m, entry = JObj m ∧
       has_string_field m "id" ∧
       (m !! "type" = Some (JStr "Work") ∨
        m !! "type" = Some (JStr "Break")) ∧
       has_string_field m "duration" ∧
       has_string_field m "time".

(** Malformed: not a sequence, or a sequence with an entry that lacks a
    field or has one of the wrong type. *)
Definition malformed (v : json) : Prop :=
  match v with
  | JArr entries => ∃ entry, entry ∈ entries ∧ ¬ well_formed_entry entry
  | _ => True
  end.

(** ** Sample inputs *)

Definition sample_env : Env :=
  {| Date_now := 1700000000000;
     Math_random := "0.25";
     toLocaleTimeString := "3:45:12 PM" |}.

Definition sample_entry : SessionLog.t :=
  SessionLog.mk "1699999990000-0.75" Work "25:00" "3:45:02 PM".

(** Idle in the break phase with the default durations. *)
Definition idle_on_break : TimerState :=
  {| secondsLeft := 5 * 60;
     isRunning := false;
     isBreak := true;
     message := msg_break_coffee;
     workSessions := 1;
     breakSessions := 0;
     sessionLog := [sample_entry] |}.

(** A parser that knows the listed texts only, standing in for
    [JSON.parse] on them. *)
Definition parse_table (table : list (string * json)) (text : string)
  : Exc json :=
  match (list_to_map table : gmap string json) !! text with
  | Some v => Return v
  | None => Throw
  end.

Definition storage_of (l : list (string * string)) : Storage :=
  {| accessible := true; items := list_to_map l |}.

(** An entry as stored, without its [type] field, and a complete one. *)
Definition entry_without_type : json :=
  JObj (<["id" := JStr "1699999990000-0.75"]>
       (<["duration" := JStr "25:00"]>
       (<["time" := JStr "3:45:02 PM"]> ∅))).

Definition entry_complete : json :=
  JObj (<["id" := JStr "1699999990000-0.75"]>
       (<["type" := JStr "Work"]>
       (<["duration" := JStr "25:00"]>
       (<["time" := JStr "3:45:02 PM"]> ∅)))).

(** A state whose log is full. *)
Definition full_log : TimerState :=
  {| secondsLeft := 0;
     isRunning := true;
     isBreak := false;
     message := msg_focus;
     workSessions := 50;
     breakSessions := 50;
     sessionLog := replicate 50 sample_entry |}.

(** The countdown of the work phase has just reached 0. *)
Definition countdown_over : TimerState :=
  {| secondsLeft := 0;
     isRunning := true;
     isBreak := false;
     message := msg_focus;
     workSessions := 0;
     breakSessions := 0;
     sessionLog := [] |}.

(** The break input was edited to 10 while the timer sits idle in the
    break phase. *)
Definition editing_break : Component :=
  {| workMinutes := 25;
     breakMinutes := 5;
     workInput := "25";
     breakInput := "10";
     autoStart := false;
     state := idle_on_break |}.

(** ** Callbacks of the component (lines 373-390, 409-429)

    A callback is created during a render and reads the values of that
    render; [dispatch] acts on the state that is current when the callback
    runs.  The render a callback was created in is its first argument. *)

Definition dispatch (env : Env) (action : TimerAction) (c : Component)
  : Component :=
  {| workMinutes := workMinutes c;
     breakMinutes := breakMinutes c;
     workInput := workInput c;
     breakInput := breakInput c;
     autoStart := autoStart c;
     state := timerReducer env (state c) action |}.

(** The two [play()] calls that unlock the audio elements touch no state
    of the component. *)
Definition toggleTimer (render : Component) (env : Env) (c : Component)
  : Component :=
  dispatch env (TOGGLE_TIMER (isBreak (state render))) c.

Definition stopTimer (env : Env) (c : Component) : Component :=
  dispatch env STOP c.

Definition resetTimer (render : Component) (env : Env) (c : Component)
  : Component :=
  dispatch env (RESET (workMinutes render)) c.

(** [toggleFullscreen] changes the fullscreen and menu flags only. *)
Definition handleKeyDown (render : Component) (env : Env) (code : string)
    (c : Component) : Component :=
  if String.eqb code "Space" then toggleTimer render env c
  else if String.eqb code "KeyR" then resetTimer render env c
  else if String.eqb code "KeyS" then stopTimer env c
  else c.

(** The keyboard effect has an empty dependency list: the listener it
    registers is the one of the first render, whose values are the
    initial ones. *)
Definition keyboardListener : Env → string → Component → Component :=
  handleKeyDown initialComponent.

(** What the user and the effects can do to the component. *)
Inductive Command : Type :=
  | ChangeWorkInput (value : string)
  | ChangeBreakInput (value : string)
  | BlurWorkInput
  | BlurBreakInput
  | SetAutoStart (checked : bool)
  | ClickStartPause
  | ClickStop
  | ClickReset
  | KeyDown (code : string)
  | IntervalFires
  | TransitionDispatched.

Definition perform (env : Env) (c : Component) (cmd : Command) : Component :=
  match cmd with
  | ChangeWorkInput value =>
      {| workMinutes := workMinutes c; breakMinutes := breakMinutes c;
         workInput := value; breakInput := breakInput c;
         autoStart := autoStart c; state := state c |}
  | ChangeBreakInput value =>
      {| workMinutes := workMinutes c; breakMinutes := breakMinutes c;
         workInput := workInput c; breakInput := value;
         autoStart := autoStart c; state := state c |}
  | BlurWorkInput => handleWorkInputBlur env c
  | BlurBreakInput => handleBreakInputBlur env c
  | SetAutoStart checked =>
      {| workMinutes := workMinutes c; breakMinutes := breakMinutes c;
         workInput := workInput c; breakInput := breakInput c;
         autoStart := checked; state := state c |}
  | ClickStartPause => toggleTimer c env c
  | ClickStop => stopTimer env c
  | ClickReset => resetTimer c env c
  | KeyDown code => keyboardListener env code c
  | IntervalFires => dispatch env TICK c
  | TransitionDispatched =>
      dispatch env
        (PHASE_TRANSITION (workMinutes c) (breakMinutes c) (autoStart c)) c
  end.

(** ** Values as they are written to storage *)

Definition SessionType_text (k : SessionType) : string :=
  match k with
  | Work => "Work"
  | Break => "Break"
  end.

Definition jsonOfEntry (e : SessionLog.t) : json :=
  JObj (<["id" := JStr (SessionLog.id e)]>
       (<["type" := JStr (SessionType_text (SessionLog.type e))]>
       (<["duration" := JStr (SessionLog.duration e)]>
       (<["time" := JStr (SessionLog.time e)]> ∅)))).

Definition jsonOfLog (log : list SessionLog.t) : json :=
  JArr (jsonOfEntry <$> log).

Definition jsonOfNumber (n : Z) : json := JNum (number_of_Z n).

(** ** The interval handles (lines 187, 272-289, 297, 347-352)

    [setInterval] hands out a handle that is not in use; handles are
    positive, so a stored handle is truthy. *)
Record Timers : Type := mkTimers {
  active : gset positive;
  next_handle : positive;
  timerRef : option positive;
}.

Definition noTimers : Timers :=
  {| active := ∅; next_handle := 1%positive; timerRef := None |}.

Definition clearInterval (h : positive) (t : Timers) : Timers :=
  {| active := active t ∖ {[h]};
     next_handle := next_handle t;
     timerRef := timerRef t |}.

(** [if (timerRef.current) clearInterval(timerRef.current)]. *)
Definition clearTimerRef (t : Timers) : Timers :=
  match timerRef t with
  | Some h => clearInterval h t
  | None => t
  end.

(** [timerRef.current = setInterval(...)]. *)
Definition armTimerRef (t : Timers) : Timers :=
  {| active := {[next_handle t]} ∪ active t;
     next_handle := Pos.succ (next_handle t);
     timerRef := Some (next_handle t) |}.

(** The countdown effect for a render with the given [isRunning], and its
    cleanup. *)
Definition countdownEffect (isRunning : bool) (t : Timers) : Timers :=
  if isRunning then armTimerRef (clearTimerRef t) else clearTimerRef t.

Definition countdownCleanup (t : Timers) : Timers := clearTimerRef t.

(** What the phase transition effect does to the handles: it clears the
    stored one (line 297) and, when the next phase runs, clears and sets
    again (lines 347-352). *)
Definition transitionTimers (rearm : bool) (t : Timers) : Timers :=
  let timers1 := clearTimerRef t in
  if rearm then armTimerRef (clearTimerRef timers1) else timers1.

(** ** Writing to storage (lines 148-158), and the effects that do *)

Inductive Theme : Type := light | dark.

Definition Theme_text (theme : Theme) : string :=
  match theme with
  | light => "light"
  | dark => "dark"
  end.

(** What an effect works on besides the render's values: the store, the
    interval handles, the two flags and the toasts shown so far. *)
Record World : Type := mkWorld {
  storage : Storage;
  timers : Timers;
  isLoggingRef : bool;
  transitionRef : bool;
  toasts : list string;
}.

Section Saver.

(** [JSON.stringify], and whether the browser accepts a store of the
    given items ([setItem] throws a [QuotaExceededError] when not). *)
Variable JSON_stringify : json → string.
Variable within_quota : gmap string string → bool.

Definition setItem (localStorage : Storage) (key value : string)
  : Exc Storage :=
  if accessible localStorage then
    if within_quota (<[key := value]> (items localStorage)) then
      Return {| accessible := true;
                items := <[key := value]> (items localStorage) |}
    else Throw
  else Throw.

Definition save_failed (key : string) : string :=
  "Failed to save " +:+ key +:+ " to storage. Check browser settings.".

(** The store afterwards and the toasts shown. *)
Definition setLocalStorage (key : string) (value : json)
    (localStorage : Storage) : Storage * list string :=
  match setItem localStorage key (JSON_stringify value) with
  | Return localStorage' => (localStorage', [])
  | Throw => (localStorage, [save_failed key])
  end.

(** One write after another. *)
Definition and_then (f g : Storage → Storage * list string)
  : Storage → Storage * list string :=
  λ localStorage,
    let '(localStorage1, shown1) := f localStorage in
    let '(localStorage2, shown2) := g localStorage1 in
    (localStorage2, shown1 ++ shown2).

(** The persistence effect (lines 222-236). *)
Definition persistEffect (c : Component)
  : Storage → Storage * list string :=
  and_then (setLocalStorage "workMinutes" (jsonOfNumber (workMinutes c)))
  (and_then (setLocalStorage "breakMinutes" (jsonOfNumber (breakMinutes c)))
  (and_then (setLocalStorage "autoStart" (JBool (autoStart c)))
  (and_then (setLocalStorage "workSessions"
               (jsonOfNumber (workSessions (state c))))
  (and_then (setLocalStorage "breakSessions"
               (jsonOfNumber (breakSessions (state c))))
            (setLocalStorage "sessionLog"
               (jsonOfLog (sessionLog (state c)))))))).

(** [confirmResetHistory] (lines 475-483): the component, the store and
    the toasts afterwards (closing the modal is a rendering flag). *)
Definition confirmResetHistory (env : Env) (c : Component)
    (localStorage : Storage) : Component * (Storage * list string) :=
  (dispatch env RESET_HISTORY c,
   and_then
     (and_then (setLocalStorage "workSessions" (jsonOfNumber 0))
     (and_then (setLocalStorage "breakSessions" (jsonOfNumber 0))
               (setLocalStorage "sessionLog" (JArr []))))
     (λ localStorage', (localStorage', ["History reset!"]))
     localStorage).

(** The theme initialisation effect (lines 238-258): the theme chosen,
    whether the document carries the [dark] class, and the store and
    toasts afterwards.  [getItem] is called outside any [try]. *)
Definition themeInitEffect (prefersDark : bool) (localStorage : Storage)
  : Exc (Theme * bool * (Storage * list string)) :=
  storedTheme ← getItem localStorage "theme";
  let initialTheme :=
    if bool_decide (storedTheme = Some "dark") then dark
    else if bool_decide (storedTheme = Some "light") then light
    else if prefersDark then dark
    else light in
  Return (initialTheme,
          match initialTheme with dark => true | light => false end,
          setLocalStorage "theme" (JStr (Theme_text initialTheme))
            localStorage).

(** The phase transition effect (lines 292-360) for a render with the
    values [c]: the world afterwards and the actions dispatched.  [env]
    is what the effect itself reads for the entry it saves.  Playing the
    sound touches no state; the timeout that clears [transitionRef] runs
    later. *)
Definition phaseTransitionEffect (env : Env) (c : Component) (w : World)
  : World * list TimerAction :=
  let state := state c in
  if (secondsLeft state <=? 0) && isRunning state && negb (isLoggingRef w)
  then
    let '(storage', shown) :=
      and_then
        (setLocalStorage "workSessions"
           (jsonOfNumber (workSessions state
                          + (if isBreak state then 0 else 1))))
        (and_then
           (setLocalStorage "breakSessions"
              (jsonOfNumber (breakSessions state
                             + (if isBreak state then 1 else 0))))
           (setLocalStorage "sessionLog"
              (jsonOfLog
                 (newEntry env state (workMinutes c) (breakMinutes c)
                    :: take 49 (sessionLog state)))))
        (storage w) in
    ({| storage := storage';
        timers :=
          transitionTimers
            (negb (isBreak state) || (isBreak state && autoStart c))
            (timers w);
        isLoggingRef := false;
        transitionRef := true;
        toasts := toasts w ++ shown |},
     [PHASE_TRANSITION (workMinutes c) (breakMinutes c) (autoStart c)])
  else (w, []).

End Saver.

(** What happens to the interval handles, in any order. *)
Inductive TimerOp : Type :=
  | RunCountdownEffect (isRunning : bool)
  | RunCountdownCleanup
  | RunTransitionEffect (rearm : bool).

Definition timerOp (t : Timers) (op : TimerOp) : Timers :=
  match op with
  | RunCountdownEffect isRunning => countdownEffect isRunning t
  | RunCountdownCleanup => countdownCleanup t
  | RunTransitionEffect rearm => transitionTimers rearm t
  end.

(** ** Notions the properties below are stated with *)

(** The sessions of kind [k] in a log. *)
Definition sessions_of (k : SessionType) (log : list SessionLog.t) : Z :=
  Z.of_nat (length (filter (λ e, SessionLog.type e = k) log)).

(** A loaded history whose counters count its log, which is not longer
    than the cap. *)
Definition init_consistent (ev : Env * TimerAction) : Prop :=
  match ev.2 with
  | INIT_STATE workSessions breakSessions log =>
      (length log ≤ 50)%nat ∧
      workSessions = sessions_of Work log ∧
      breakSessions = sessions_of Break log
  | _ => True
  end.

(** The action carries the durations [w] and [b] where it carries any. *)
Definition uses_config (w b : Z) (ev : Env * TimerAction) : Prop :=
  match ev.2 with
  | PHASE_TRANSITION workMinutes breakMinutes _ =>
      workMinutes = w ∧ breakMinutes = b
  | RESET workMinutes => workMinutes = w
  | _ => True
  end.

(** The countdown lies between 0 and the length of the active phase. *)
Definition within_phase (w b : Z) (s : TimerState) : Prop :=
  0 ≤ secondsLeft s ≤ (if isBreak s then b else w) * 60.

Definition well_configured (c : Component) : Prop :=
  1 ≤ workMinutes c ∧ 1 ≤ breakMinutes c ∧ 0 ≤ secondsLeft (state c).

(** Every handle in use is the one stored in [timerRef]. *)
Definition only_timerRef_active (t : Timers) : Prop :=
  ∀ h, h ∈ active t → timerRef t = Some h.

(** The double quote character. *)
Definition quote : string := String (ascii_of_nat 34) EmptyString.

(** [JSON.parse] reads back what [JSON.stringify] wrote for [v], and the
    text written is not empty. *)
Definition round_trips (JSON_stringify : json → string)
    (JSON_parse : string → Exc json) (v : json) : Prop :=
  JSON_parse (JSON_stringify v) = Return v ∧ JSON_stringify v ≠ "".


(** ** More sample inputs *)

(** A serializer for the values the component writes (integers,
    booleans, strings without escapes, objects of those, arrays), to try
    the storage functions with. *)
Definition text_of_scalar (v : json) : string :=
  match v with
  | JBool true => "true"
  | JBool false => "false"
  | JNum x => from_option pretty "null" (number_to_Z x)
  | JStr s => quote +:+ s +:+ quote
  | _ => "null"
  end.

Definition text_of_object (m : gmap string json) : string :=
  "{" +:+ String.concat ","
            ((λ kv, quote +:+ kv.1 +:+ quote +:+ ":" +:+ text_of_scalar kv.2)
               <$> map_to_list m)
      +:+ "}".

Definition text_of_element (v : json) : string :=
  match v with
  | JObj m => text_of_object m
  | _ => text_of_scalar v
  end.

Definition sample_stringify (v : json) : string :=
  match v with
  | JArr l => "[" +:+ String.concat "," (text_of_element <$> l) +:+ "]"
  | _ => text_of_element v
  end.

(** The parser that reads back exactly the texts of the given values. *)
Definition sample_parse (values : list json) : string → Exc json :=
  parse_table ((λ v, (sample_stringify v, v)) <$> values).

Definition unlimited (items : gmap string string) : bool := true.

(** A component in the middle of a break, and a world to run effects in. *)
Definition sample_component : Component :=
  {| workMinutes := 50;
     breakMinutes := 10;
     workInput := "50";
     breakInput := "10";
     autoStart := true;
     state :=
       {| secondsLeft := 417;
          isRunning := true;
          isBreak := true;
          message := msg_break_party;
          workSessions := 3;
          breakSessions := 2;
          sessionLog := [sample_entry] |} |}.

(** The same component when the countdown of its break is over. *)
Definition break_over : Component :=
  {| workMinutes := 50;
     breakMinutes := 10;
     workInput := "50";
     breakInput := "10";
     autoStart := true;
     state :=
       {| secondsLeft := 0;
          isRunning := true;
          isBreak := true;
          message := msg_break_party;
          workSessions := 3;
          breakSessions := 2;
          sessionLog := [sample_entry] |} |}.

Definition sample_world : World :=
  {| storage := storage_of [];
     timers := noTimers;
     isLoggingRef := false;
     transitionRef := false;
     toasts := [] |}.

(** ** The exact range of the numbers *)

(** Up to this magnitude every integer is a double, and sums, differences
    and products that stay within it are exact. *)
Definition max_exact : Z := 2 ^ 53.

(** The durations, the countdown and the durations the two inputs stand
    for have at most 2^53 seconds. *)
Definition within_exact_range (c : Component) : Prop :=
  workMinutes c * 60 ≤ max_exact ∧
  breakMinutes c * 60 ≤ max_exact ∧
  secondsLeft (state c) ≤ max_exact ∧
  JS.Math_max 1 (or_1 (parseInt (workInput c))) * 60 ≤ max_exact ∧
  JS.Math_max 1 (or_1 (parseInt (breakInput c))) * 60 ≤ max_exact.

(** What is typed into a duration input stands for at most 2^53
    seconds. *)
Definition types_within_exact_range (cmd : Command) : Prop :=
  match cmd with
  | ChangeWorkInput value | ChangeBreakInput value =>
      JS.Math_max 1 (or_1 (parseInt value)) * 60 ≤ max_exact
  | _ => True
  end.

(** ** The countdown when it is not an integer

    A duration loaded from storage can be any number the store held.
    These are lines 96 and 46 on rationals: what [RESET] makes of a
    loaded duration, and what [TICK] makes of the countdown. *)

Definition asRational (v : json) : option Qc :=
  match v with
  | JNum (Finite q) => Some q
  | _ => None
  end.

Definition reset_seconds (workMinutes : Qc) : Qc :=
  (workMinutes * Qc_of_Z 60)%Qc.

Definition tick_seconds (secondsLeft : Qc) : Qc :=
  if decide (Qc_of_Z 0 < secondsLeft)%Qc
  then (secondsLeft - Qc_of_Z 1)%Qc
  else Qc_of_Z 0.

(** ** Schedules: interval callbacks and effect runs in any order

    The interval callback dispatches [TICK]; a run of the phase
    transition effect works on the values current at that moment and its
    dispatches reach the reducer before anything else happens.
    [transitions] counts the [PHASE_TRANSITION]s dispatched. *)

Inductive Step : Type := IntervalTick | EffectRun.

#[global] Instance Step_eq_dec : EqDecision Step.
Proof. solve_decision. Defined.


Section Schedules.

Variable JSON_stringify : json → string.
Variable within_quota : gmap string string → bool.



End Schedules.





(** * Properties *)

(** ** [formatTime] on the values the timer shows *)

Example formatTime_25_minutes : formatTime (25 * 60) = "25:00".
Proof. reflexivity. Qed.

Example formatTime_59_seconds : formatTime 59 = "00:59".
Proof. reflexivity. Qed.

Example formatTime_100_minutes : formatTime (100 * 60 + 7) = "100:07".
Proof. reflexivity. Qed.

(** ** The reducer, action by action *)

Section Reducer.

Variable env : Env.
Variable s : TimerState.




(** C2. After a phase transition the timer runs when the phase entered
    is Break, whatever [autoStart] is; when the phase entered is Work,
    [isRunning] is [autoStart]. *)
Theorem phase_transition_isRunning workMinutes breakMinutes autoStart :
  let s' :=
    timerReducer env s
      (PHASE_TRANSITION workMinutes breakMinutes autoStart) in
  isBreak s' = negb (isBreak s) ∧
  isRunning s' = (if isBreak s' then true else autoStart).
Proof. by case_eq (isBreak s); intros Hb; cbn; rewrite Hb. Qed.


(** C7. [RESET_HISTORY] zeroes both counters and empties the log, and
    leaves [secondsLeft], [isRunning] and [isBreak] as they were. *)
Theorem reset_history_effect :
  let s' := timerReducer env s RESET_HISTORY in
  workSessions s' = 0 ∧ breakSessions s' = 0 ∧ sessionLog s' = [] ∧
  secondsLeft s' = secondsLeft s ∧ isRunning s' = isRunning s ∧
  isBreak s' = isBreak s.
Proof. repeat apply conj; reflexivity. Qed.

Lemma tick_secondsLeft :
  secondsLeft (timerReducer env s TICK) = Z.max 0 (secondsLeft s - 1).
Proof. cbn. destruct (Z.ltb_spec 0 (secondsLeft s)); lia. Qed.

(** C10, as it holds of the code.  On a countdown that is an integer
    between 0 and 2^53: [TICK] with [secondsLeft = n > 0] gives [n - 1]
    and changes nothing else (running flag, phase, counters and log
    stay: the reducer performs no phase transition); [TICK] at 0 leaves
    the state as it is; and the countdown after the [TICK] is again an
    integer between 0 and 2^53. *)
Theorem tick_effect_on_integers :
  0 ≤ secondsLeft s ≤ max_exact →
  let s' := timerReducer env s TICK in
  (0 < secondsLeft s →
     secondsLeft s' = secondsLeft s - 1 ∧
     isRunning s' = isRunning s ∧ isBreak s' = isBreak s ∧
     workSessions s' = workSessions s ∧
     breakSessions s' = breakSessions s ∧
     sessionLog s' = sessionLog s) ∧
  (secondsLeft s = 0 → s' = s) ∧
  0 ≤ secondsLeft s' ≤ max_exact.
Proof.
  intros Hrange s'. split; [|split].
  - intros Hpos. subst s'. rewrite tick_secondsLeft.
    split; [lia | done].
  - intros H0. subst s'. destruct s as [sl run brk msg ws bs log].
    cbn in *. by subst sl.
  - subst s'. rewrite tick_secondsLeft. lia.
Qed.

(** Lines 46 and 96 on rationals are the reducer's lines: on integers
    they give what [timerReducer] gives. *)
Lemma tick_seconds_on_integers :
  tick_seconds (Qc_of_Z (secondsLeft s))
  = Qc_of_Z (secondsLeft (timerReducer env s TICK)).
Proof.
  unfold tick_seconds. cbn [timerReducer].
  destruct (Z.ltb_spec 0 (secondsLeft s)) as [Hpos | Hle]; cbn [secondsLeft].
  - rewrite decide_True by exact (proj1 (Z2Qc_inj_lt _ _) Hpos).
    by rewrite Z2Qc_inj_sub.
  - rewrite decide_False; [reflexivity|].
    intros Hlt. apply (proj2 (Z2Qc_inj_lt _ _)) in Hlt. lia.
Qed.

Lemma reset_seconds_on_integers workMinutes :
  reset_seconds (Qc_of_Z workMinutes)
  = Qc_of_Z (secondsLeft (timerReducer env s (RESET workMinutes))).
Proof. unfold reset_seconds. cbn. by rewrite Z2Qc_inj_mul. Qed.

End Reducer.

Lemma tick_effect_on_integers_witness :
  secondsLeft (timerReducer sample_env initialState TICK) = 1499 ∧
  timerReducer sample_env countdown_over TICK = countdown_over.
Proof.
  split.
  - destruct (tick_effect_on_integers sample_env initialState) as [Hpos _];
      [vm_compute; split; discriminate|].
    destruct Hpos as [Hsec _]; [reflexivity | exact Hsec].
  - destruct (tick_effect_on_integers sample_env countdown_over)
      as (_ & Hzero & _); [vm_compute; split; discriminate|].
    apply Hzero. reflexivity.
Defined.

(** The test of line 46 is [secondsLeft > 0] alone: a countdown strictly
    between 0 and 1 passes it and ends below 0. *)
Lemma tick_seconds_below_one (x : Qc) :
  (Qc_of_Z 0 < x)%Qc → (x < Qc_of_Z 1)%Qc →
  (tick_seconds x < Qc_of_Z 0)%Qc.
Proof.
  intros Hpos Hlt. unfold tick_seconds. rewrite decide_True by done.
  apply (Qcplus_lt_mono_r _ _ (Qc_of_Z 1)).
  replace (x - Qc_of_Z 1 + Qc_of_Z 1)%Qc with x by ring.
  replace (Qc_of_Z 0 + Qc_of_Z 1)%Qc with (Qc_of_Z 1)
    by (rewrite Z2Qc_inj_0; ring).
  exact Hlt.
Qed.

(** C10, counterexample.  The store holds [0.01] under [workMinutes].
    [getLocalStorage] returns it as it is (it is no integer: the typed
    component has no place for it), the [RESET] of the mount effect makes
    a countdown of 0.6 seconds of it, and the first [TICK] takes that to
    -0.4: the countdown is negative. *)
Lemma fractional_countdown_goes_negative :
  let stored := JNum (Finite (Q2Qc (1 # 100))) in
  getLocalStorage (parse_table [("0.01", stored)])
    (storage_of [("workMinutes", "0.01")]) "workMinutes"
    (JNum (number_of_Z 25)) = stored ∧
  asNumber stored = None ∧
  asRational stored = Some (Q2Qc (1 # 100)) ∧
  reset_seconds (Q2Qc (1 # 100)) = Q2Qc (3 # 5) ∧
  tick_seconds (Q2Qc (3 # 5)) = Q2Qc (-2 # 5) ∧
  (Q2Qc (-2 # 5) < Qc_of_Z 0)%Qc.
Proof.
  cbn zeta. split; [vm_compute; reflexivity|].
  split; [reflexivity|]. split; [reflexivity|].
  split; [apply Qc_is_canon; reflexivity|].
  split; [|reflexivity].
  unfold tick_seconds. rewrite decide_True by reflexivity.
  apply Qc_is_canon. reflexivity.
Qed.

(** ** The log along a run *)

(** The cap is kept by one step: the log stays the 50 newest entries of
    the history. *)
Lemma step_log_history s h ev :
  init_log_bounded ev →
  sessionLog s = take 50 h →
  sessionLog (step s ev) = take 50 (history_step (s, h) ev).2.
Proof.
  destruct ev as [env a]. unfold init_log_bounded, step, history_step.
  intros Hbound Hlog. destruct a; cbn in *; try assumption.
  - rewrite Hlog, take_take. reflexivity.
  - reflexivity.
  - symmetry. by apply take_ge.
Qed.

Lemma run_log_history evs : ∀ s h,
  Forall init_log_bounded evs →
  sessionLog s = take 50 h →
  sessionLog (run s evs) = take 50 (history_from s h evs).
Proof.
  unfold run, history_from.
  induction evs as [|ev evs IH]; intros s h Hall Hlog; [exact Hlog|].
  inversion_clear Hall as [|? ? Hev Hevs]. cbn [foldl].
  apply (IH (step s ev) (history_step (s, h) ev).2 Hevs).
  by apply step_log_history.
Qed.

(** A full log loses its last entry to make room for the new one. *)
Lemma phase_transition_on_full_log env s workMinutes breakMinutes autoStart :
  length (sessionLog s) = 50%nat →
  ∃ kept oldest,
    sessionLog s = kept ++ [oldest] ∧
    sessionLog (timerReducer env s
                  (PHASE_TRANSITION workMinutes breakMinutes autoStart))
    = newEntry env s workMinutes breakMinutes :: kept.
Proof.
  intros Hlen.
  destruct (drop 49 (sessionLog s)) as [|oldest rest] eqn:Hdrop.
  - apply (f_equal length) in Hdrop. rewrite length_drop in Hdrop.
    cbn in Hdrop. lia.
  - assert (rest = []) as ->.
    { apply (f_equal length) in Hdrop. rewrite length_drop in Hdrop.
      cbn in Hdrop. apply length_zero_iff_nil. lia. }
    exists (take 49 (sessionLog s)), oldest. split; [|reflexivity].
    rewrite <- Hdrop. symmetry. apply take_drop.
Qed.

(** C5 as written fails: [INIT_STATE] installs the log it is given, and
    a log of 51 entries is a log the reducer accepts (the loader hands a
    well-formed stored log back whatever its length, see
    [load_well_formed_sessionLog]). *)
Lemma oversized_init_log_breaks_cap :
  ¬ (length (sessionLog
       (run initialState
          [(sample_env, INIT_STATE 0 0 (replicate 51 sample_entry))]))
     ≤ 50)%nat.
Proof. cbn. lia. Qed.

(** C5 (amended).  In every state reached from the initial state by a run
    whose [INIT_STATE] actions carry logs of at most 50 entries, the log
    has at most 50 entries and is the 50 newest entries of the run's
    history, newest first; and a phase transition on a log of 50 entries
    puts the new entry in front and drops the last, oldest one. *)
Theorem sessionLog_capped_newest_first evs :
  Forall init_log_bounded evs →
  let s := run initialState evs in
  (length (sessionLog s) ≤ 50)%nat ∧
  sessionLog s = take 50 (history evs) ∧
  ∀ env s0 workMinutes breakMinutes autoStart,
    length (sessionLog s0) = 50%nat →
    ∃ kept oldest,
      sessionLog s0 = kept ++ [oldest] ∧
      sessionLog (timerReducer env s0
                    (PHASE_TRANSITION workMinutes breakMinutes autoStart))
      = newEntry env s0 workMinutes breakMinutes :: kept.
Proof.
  intros Hall s.
  assert (sessionLog s = take 50 (history evs)) as Hlog
    by (by apply run_log_history).
  split; [|split; [exact Hlog|]].
  - rewrite Hlog, length_take. lia.
  - intros env s0 wm bm auto. apply phase_transition_on_full_log.
Qed.

Lemma sessionLog_capped_newest_first_witness :
  sessionLog
    (run initialState
       [(sample_env, INIT_STATE 1 0 [sample_entry]);
        (sample_env, PHASE_TRANSITION 25 5 false)])
  = [newEntry sample_env initialState 25 5; sample_entry] ∧
  sessionLog (timerReducer sample_env full_log (PHASE_TRANSITION 25 5 false))
  = newEntry sample_env full_log 25 5 :: replicate 49 sample_entry.
Proof.
  pose proof (sessionLog_capped_newest_first
    [(sample_env, INIT_STATE 1 0 [sample_entry]);
     (sample_env, PHASE_TRANSITION 25 5 false)]) as H.
  destruct H as (_ & Hlog & Hfull).
  - repeat apply Forall_cons_2; [cbn; lia | cbn; lia | apply Forall_nil_2].
  - split; [rewrite Hlog; reflexivity|].
    destruct (Hfull sample_env full_log 25 5 false)
      as (kept & oldest & Hsplit & ->); [reflexivity|].
    change (sessionLog full_log)
      with (replicate 49 sample_entry ++ [sample_entry]) in Hsplit.
    apply app_inj_tail in Hsplit as [<- _]. reflexivity.
Defined.

(** ** The loader *)

Lemma typeof_string_true x : typeof_string x = true ↔ ∃ s, x = Some (JStr s).
Proof.
  split.
  - destruct x as [[]|]; cbn; try discriminate. eauto.
  - intros [s ->]. reflexivity.
Qed.

Lemma includes_kinds_true x :
  includes ["Work"; "Break"] x = true
  ↔ x = Some (JStr "Work") ∨ x = Some (JStr "Break").
Proof.
  split.
  - destruct x as [[]|]; cbn; try discriminate.
    intros Hin%bool_decide_eq_true.
    rewrite !elem_of_cons, elem_of_nil in Hin.
    destruct Hin as [-> | [-> | []]]; auto.
  - intros [-> | ->]; reflexivity.
Qed.

(** The guard [entry &&] keeps the property reads away from [null]: the
    callback never throws. *)
Lemma validEntry_total entry : ∃ b, validEntry entry = Return b.
Proof.
  unfold validEntry. destruct (truthy entry) eqn:Htruthy; cbn; [|eauto].
  destruct entry as [| | | | |m]; try discriminate; cbn; eauto.
  destruct (typeof_string (m !! "id")); cbn; [|eauto].
  destruct (includes _ (m !! "type")); cbn; [|eauto].
  destruct (typeof_string (m !! "duration")); cbn; eauto.
Qed.

Lemma validEntry_true entry :
  validEntry entry = Return true ↔ well_formed_entry entry.
Proof.
  unfold validEntry, well_formed_entry, has_string_field. split.
  - destruct entry as [|b|n|str|l|m]; cbn.
    1-5: repeat case_match; cbn; discriminate.
    destruct (typeof_string (m !! "id")) eqn:Hid; cbn; [|discriminate].
    destruct (includes _ (m !! "type")) eqn:Hty; cbn; [|discriminate].
    destruct (typeof_string (m !! "duration")) eqn:Hdu; cbn;
      [|discriminate].
    intros [= Htm]. exists m.
    apply typeof_string_true in Hid, Hdu, Htm.
    apply includes_kinds_true in Hty. auto.
  - intros (m & -> & Hid & Hty & Hdu & Htm). cbn.
    apply typeof_string_true in Hid, Hdu, Htm.
    apply includes_kinds_true in Hty.
    rewrite Hid, Hty, Hdu, Htm. reflexivity.
Qed.

Lemma every_validEntry entries :
  ∃ b, every validEntry entries = Return b ∧
       (b = true ↔ Forall well_formed_entry entries).
Proof.
  induction entries as [|entry entries (b & Hrest & Hb)]; cbn.
  - exists true. split; [reflexivity|]. split; [constructor | reflexivity].
  - destruct (validEntry_total entry) as [[] Hentry]; rewrite Hentry; cbn.
    + exists b. split; [exact Hrest|]. rewrite Hb, Forall_cons.
      apply validEntry_true in Hentry. tauto.
    + exists false. split; [reflexivity|]. split; [discriminate|].
      intros [Hwf%validEntry_true _]%Forall_cons. congruence.
Qed.

Lemma every_validEntry_malformed entries :
  malformed (JArr entries) → every validEntry entries = Return false.
Proof.
  intros (entry & Hin & Hbad).
  destruct (every_validEntry entries) as ([] & Hev & Hb); [|exact Hev].
  destruct Hb as [Hb _]. specialize (Hb eq_refl).
  rewrite Forall_forall in Hb. destruct (Hbad (Hb _ Hin)).
Qed.

(** Opens a call of the loader up to the text it read. *)
Ltac enter_load :=
  unfold getLocalStorage, getLocalStorage_try, getItem;
  repeat match goal with
    | H : accessible _ = _ |- _ => rewrite H
    | H : items _ !! _ = _ |- _ => rewrite H
    | |- context [mbind _ (Return _)] => cbn [mbind Exc_bind]
    end.

Section LoaderProperties.

Variable JSON_parse : string → Exc json.
Variable localStorage : Storage.

(** A key that is absent, or storage that may not be read, gives the
    fallback. *)
Lemma load_absent key fallback :
  items localStorage !! key = None →
  getLocalStorage JSON_parse localStorage key fallback = fallback.
Proof.
  intros Hnone. destruct (accessible localStorage) eqn:Hacc; by enter_load.
Qed.

(** Every key but [sessionLog] is handed back as parsed. *)
Lemma load_unchecked key item v fallback :
  accessible localStorage = true →
  items localStorage !! key = Some item →
  item ≠ "" → key ≠ "sessionLog" →
  JSON_parse item = Return v →
  getLocalStorage JSON_parse localStorage key fallback = v.
Proof.
  intros Hacc Hitem Hne Hkey Hparse. enter_load.
  destruct (String.eqb_spec item "") as [|_]; [done|].
  rewrite Hparse. cbn.
  destruct (String.eqb_spec key "sessionLog") as [|_]; done.
Qed.

(** C8. A stored [sessionLog] text that does not parse, or that parses
    to a malformed value (not a sequence, or with an entry that lacks
    one of [id], [type], [duration], [time] or has it at the wrong
    type), loads as the fallback: [getLocalStorage] returns exactly the
    fallback and throws nothing; when the store can be read and the text
    parses, not even the [catch] is needed. *)
Theorem load_malformed_sessionLog item fallback :
  items localStorage !! "sessionLog" = Some item →
  (JSON_parse item = Throw ∨
   ∃ v, JSON_parse item = Return v ∧ malformed v) →
  getLocalStorage JSON_parse localStorage "sessionLog" fallback = fallback ∧
  (accessible localStorage = true → JSON_parse item ≠ Throw →
   getLocalStorage_try JSON_parse localStorage "sessionLog" fallback
   = Return fallback).
Proof.
  intros Hitem Hbad.
  destruct (accessible localStorage) eqn:Hacc; enter_load; [|done].
  destruct (String.eqb item ""); [done|].
  destruct Hbad as [Hthrow | (v & Hparse & Hmal)].
  - rewrite Hthrow. done.
  - rewrite Hparse. cbn.
    destruct v as [| | | |entries|]; try done.
    rewrite (every_validEntry_malformed _ Hmal). done.
Qed.

(** A well-formed stored log of any length is handed back as parsed:
    the loader checks the shape of the entries, not their number. *)
Lemma load_well_formed_sessionLog item entries fallback :
  accessible localStorage = true →
  items localStorage !! "sessionLog" = Some item →
  item ≠ "" →
  JSON_parse item = Return (JArr entries) →
  Forall well_formed_entry entries →
  getLocalStorage JSON_parse localStorage "sessionLog" fallback
  = JArr entries.
Proof.
  intros Hacc Hitem Hne Hparse Hwf. enter_load.
  destruct (String.eqb_spec item "") as [|_]; [done|].
  rewrite Hparse. cbn.
  destruct (every_validEntry entries) as (b & -> & Hb).
  apply Hb in Hwf as ->. reflexivity.
Qed.

End LoaderProperties.

Lemma load_malformed_sessionLog_witness :
  getLocalStorage (parse_table [("{}", JObj ∅)])
    (storage_of [("sessionLog", "{}")]) "sessionLog" (JArr [])
  = JArr [] ∧
  getLocalStorage_try (parse_table [("{}", JObj ∅)])
    (storage_of [("sessionLog", "{}")]) "sessionLog" (JArr [])
  = Return (JArr []).
Proof.
  destruct (load_malformed_sessionLog
              (parse_table [("{}", JObj ∅)])
              (storage_of [("sessionLog", "{}")])
              "{}" (JArr [])) as [Hload Htry].
  - vm_compute. reflexivity.
  - right. exists (JObj ∅). split; [vm_compute; reflexivity | exact I].
  - split; [exact Hload|]. apply Htry; [reflexivity|].
    vm_compute. discriminate.
Defined.

(** An entry without [type] spoils the whole stored log, also when the
    entries around it are fine. *)
Example validEntry_rejects_missing_type :
  validEntry entry_without_type = Return false.
Proof. vm_compute. reflexivity. Qed.

Example validEntry_accepts_complete :
  validEntry entry_complete = Return true.
Proof. vm_compute. reflexivity. Qed.

Example every_stops_at_missing_type :
  every validEntry [entry_complete; entry_without_type; entry_complete]
  = Return false.
Proof. vm_compute. reflexivity. Qed.

(** [null] among the entries is rejected by the guard, not by a
    [TypeError]. *)
Example validEntry_null : validEntry JNull = Return false.
Proof. reflexivity. Qed.

(** ** The mount effect *)

Section MountProperties.

Variable JSON_parse : string → Exc json.
Variable env : Env.

(** C9 (the code departs from the claim).  A number stored under
    [workMinutes] becomes the work duration as it is, with no lower
    bound: stored [0] gives [workMinutes = 0] and a countdown of 0
    seconds. *)
Theorem mount_takes_stored_workMinutes item n :
  item ≠ "" →
  JSON_parse item = Return (JNum (number_of_Z n)) →
  ∃ c,
    initializeFromLocalStorage JSON_parse
      (storage_of [("workMinutes", item)]) env initialComponent = Some c ∧
    workMinutes c = n ∧
    breakMinutes c = 5 ∧
    secondsLeft (state c) = n * 60.
Proof.
  intros Hne Hparse. unfold initializeFromLocalStorage.
  rewrite (load_unchecked _ _ "workMinutes" item (JNum (number_of_Z n)));
    try done.
  rewrite !load_absent by reflexivity. cbn. eauto.
Qed.

(** The same for the break duration. *)
Lemma mount_takes_stored_breakMinutes item n :
  item ≠ "" →
  JSON_parse item = Return (JNum (number_of_Z n)) →
  ∃ c,
    initializeFromLocalStorage JSON_parse
      (storage_of [("breakMinutes", item)]) env initialComponent = Some c ∧
    workMinutes c = 25 ∧
    breakMinutes c = n.
Proof.
  intros Hne Hparse. unfold initializeFromLocalStorage.
  rewrite (load_unchecked _ _ "breakMinutes" item (JNum (number_of_Z n)));
    try done.
  rewrite !load_absent by reflexivity. cbn. eauto.
Qed.

End MountProperties.

Lemma mount_takes_stored_workMinutes_witness :
  ∃ c,
    initializeFromLocalStorage (parse_table [("0", JNum (number_of_Z 0))])
      (storage_of [("workMinutes", "0")]) sample_env initialComponent
    = Some c ∧
    workMinutes c = 0 ∧ breakMinutes c = 5 ∧ secondsLeft (state c) = 0 * 60.
Proof.
  apply (mount_takes_stored_workMinutes
           (parse_table [("0", JNum (number_of_Z 0))]) sample_env "0" 0).
  - discriminate.
  - vm_compute. reflexivity.
Defined.

(** ** The duration inputs *)

Lemma coerced_at_least_1 (input : string) :
  1 ≤ JS.Math_max 1 (or_1 (parseInt input)).
Proof. unfold JS.Math_max. lia. Qed.

Example coerce_empty : JS.Math_max 1 (or_1 (parseInt "")) = 1.
Proof. reflexivity. Qed.

Example coerce_negative : JS.Math_max 1 (or_1 (parseInt "-4")) = 1.
Proof. reflexivity. Qed.

Example coerce_letters : JS.Math_max 1 (or_1 (parseInt "abc")) = 1.
Proof. reflexivity. Qed.

Example coerce_number : JS.Math_max 1 (or_1 (parseInt " 45min")) = 45.
Proof. reflexivity. Qed.

(** The work input does what the duration rule says: the coerced value
    [d] is stored, and idle in the work phase the countdown becomes
    [d * 60] with the phase unchanged. *)
Lemma handleWorkInputBlur_resync env c :
  let d := JS.Math_max 1 (or_1 (parseInt (workInput c))) in
  let c' := handleWorkInputBlur env c in
  workMinutes c' = d ∧ breakMinutes c' = breakMinutes c ∧
  (isBreak (state c) = false → isRunning (state c) = false →
   secondsLeft (state c') = d * 60 ∧ isBreak (state c') = false) ∧
  (isBreak (state c) = true ∨ isRunning (state c) = true →
   state c' = state c).
Proof.
  cbn. split; [reflexivity|]. split; [reflexivity|]. split.
  - intros -> ->. split; reflexivity.
  - intros [-> | ->]; [reflexivity|]. by rewrite andb_false_r.
Qed.

(** C3 (the code departs from the claim).  The break input stores the
    coerced value, but idle in the break phase it dispatches [RESET] with
    the work duration: the timer leaves the break phase and the countdown
    becomes [workMinutes * 60], not the new break duration times 60. *)
Theorem handleBreakInputBlur_resets_to_work env c :
  isBreak (state c) = true →
  isRunning (state c) = false →
  let d := JS.Math_max 1 (or_1 (parseInt (breakInput c))) in
  let c' := handleBreakInputBlur env c in
  1 ≤ d ∧ breakMinutes c' = d ∧ workMinutes c' = workMinutes c ∧
  isBreak (state c') = false ∧
  secondsLeft (state c') = workMinutes c * 60.
Proof.
  intros Hbreak Hidle d c'. split; [apply coerced_at_least_1|].
  subst c'. unfold handleBreakInputBlur. cbn.
  rewrite Hbreak, Hidle. cbn. auto.
Qed.

Lemma handleBreakInputBlur_resets_to_work_witness :
  let c' := handleBreakInputBlur sample_env editing_break in
  breakMinutes c' = 10 ∧ isBreak (state c') = false ∧
  secondsLeft (state c') = 1500.
Proof.
  destruct (handleBreakInputBlur_resets_to_work sample_env editing_break)
    as (_ & Hd & _ & Hphase & Hsec); [reflexivity | reflexivity |].
  cbn zeta. rewrite Hd, Hphase, Hsec. repeat split; reflexivity.
Defined.

(** ** A first session, end to end

    The work input is set to 1 and the timer started; after 60 ticks the
    countdown is over, and the phase transition the component then
    dispatches enters the break, counts the work session and logs it. *)
Example one_minute_session :
  let c :=
    handleWorkInputBlur sample_env
      {| workMinutes := 25; breakMinutes := 5; workInput := "1";
         breakInput := "5"; autoStart := false; state := initialState |} in
  let s :=
    run (state c)
      ((sample_env, TOGGLE_TIMER false) :: replicate 60 (sample_env, TICK)) in
  let s' :=
    timerReducer sample_env s
      (PHASE_TRANSITION (workMinutes c) (breakMinutes c) (autoStart c)) in
  secondsLeft (run (state c) [(sample_env, TOGGLE_TIMER false);
                              (sample_env, TICK)]) = 59 ∧
  secondsLeft s = 0 ∧ isRunning s = true ∧
  isBreak s' = true ∧ isRunning s' = true ∧ secondsLeft s' = 5 * 60 ∧
  workSessions s' = 1 ∧ breakSessions s' = 0 ∧
  sessionLog s'
  = [SessionLog.mk "1700000000000-0.25" Work "01:00" "3:45:12 PM"].
Proof. vm_compute. repeat split; reflexivity. Qed.

(** * Further properties of the code *)

(** ** Runs of the reducer *)

Lemma run_app s evs1 evs2 : run s (evs1 ++ evs2) = run (run s evs1) evs2.
Proof. apply foldl_app. Qed.

Lemma run_snoc s evs ev : run s (evs ++ [ev]) = step (run s evs) ev.
Proof. by rewrite run_app. Qed.

Lemma run_ticks env s n :
  0 ≤ secondsLeft s →
  run s (replicate n (env, TICK))
  = {| secondsLeft := Z.max 0 (secondsLeft s - Z.of_nat n);
       isRunning := isRunning s;
       isBreak := isBreak s;
       message := message s;
       workSessions := workSessions s;
       breakSessions := breakSessions s;
       sessionLog := sessionLog s |}.
Proof.
  intros Hnonneg. induction n as [|n IH].
  - destruct s; cbn in *. f_equal. lia.
  - replace (S n) with (n + 1)%nat by lia.
    rewrite replicate_add, run_app, IH. cbn.
    f_equal. destruct (Z.ltb_spec 0 (Z.max 0 (secondsLeft s - Z.of_nat n))); lia.
Qed.

(** X1. On a countdown that is an integer between 0 and 2^53, [n]
    ticks take [n] seconds off, stop at 0, and change nothing else. *)
Theorem ticks_count_down env s n :
  0 ≤ secondsLeft s ≤ max_exact →
  run s (replicate n (env, TICK))
  = {| secondsLeft := Z.max 0 (secondsLeft s - Z.of_nat n);
       isRunning := isRunning s;
       isBreak := isBreak s;
       message := message s;
       workSessions := workSessions s;
       breakSessions := breakSessions s;
       sessionLog := sessionLog s |}.
Proof. intros [Hnonneg _]. by apply run_ticks. Qed.

Lemma ticks_count_down_witness :
  secondsLeft (run initialState (replicate 1500 (sample_env, TICK))) = 0 ∧
  secondsLeft (run initialState (replicate 2000 (sample_env, TICK))) = 0 ∧
  secondsLeft (run initialState (replicate 60 (sample_env, TICK))) = 1440.
Proof.
  rewrite !(ticks_count_down sample_env initialState)
    by (vm_compute; split; discriminate).
  cbn. repeat split; reflexivity.
Defined.

Lemma step_within_phase w b s ev :
  0 ≤ w → 0 ≤ b →
  uses_config w b ev → within_phase w b s → within_phase w b (step s ev).
Proof.
  intros Hw Hb. destruct ev as [env a]. unfold uses_config, within_phase, step.
  destruct a; cbn; intros Hcfg Hin; try assumption.
  - destruct (Z.ltb_spec 0 (secondsLeft s)); lia.
  - destruct Hcfg as [-> ->]. destruct (isBreak s); cbn; lia.
  - subst. lia.
Qed.

(** X2. The durations are integers, not negative, with at most 2^53
    seconds each, and stay the same (every [PHASE_TRANSITION] and
    [RESET] carries them).  Then a countdown that is an integer between
    0 and the length of the active phase stays one, whatever the
    actions. *)
Theorem countdown_within_phase w b s evs :
  0 ≤ w * 60 ≤ max_exact → 0 ≤ b * 60 ≤ max_exact →
  within_phase w b s →
  Forall (uses_config w b) evs →
  within_phase w b (run s evs).
Proof.
  intros [Hw _] [Hb _] Hin Hall. revert s Hin.
  assert (0 ≤ w) by lia. assert (0 ≤ b) by lia. clear Hw Hb.
  induction Hall as [|ev evs Hev _ IH]; intros s Hin; [exact Hin|].
  apply IH. by apply step_within_phase.
Qed.

Lemma countdown_within_phase_witness :
  within_phase 25 5
    (run initialState
       ((sample_env, TOGGLE_TIMER false)
        :: replicate 1500 (sample_env, TICK)
        ++ [(sample_env, PHASE_TRANSITION 25 5 true); (sample_env, TICK)])).
Proof.
  apply countdown_within_phase;
    [vm_compute; split; discriminate | vm_compute; split; discriminate
    | unfold within_phase; cbn; lia |].
  apply Forall_cons_2; [exact I|]. apply Forall_app_2.
  - apply Forall_replicate. exact I.
  - repeat apply Forall_cons_2; cbn; auto.
Defined.

(** ** Counters and history *)

Lemma sessions_of_cons k e log :
  sessions_of k (e :: log)
  = sessions_of k log + (if decide (SessionLog.type e = k) then 1 else 0).
Proof.
  unfold sessions_of. rewrite filter_cons.
  case_decide; cbn [length]; lia.
Qed.

Lemma sessions_total log :
  sessions_of Work log + sessions_of Break log = Z.of_nat (length log).
Proof.
  induction log as [|e log IH]; [reflexivity|].
  rewrite !sessions_of_cons. cbn [length].
  destruct (SessionLog.type e); repeat case_decide; try congruence; lia.
Qed.

Lemma history_from_state evs : ∀ s h,
  (foldl history_step (s, h) evs).1 = run s evs.
Proof.
  induction evs as [|ev evs IH]; intros s h; [reflexivity|].
  cbn [foldl]. unfold history_step at 2. apply IH.
Qed.

Lemma step_counts_history s h ev :
  init_consistent ev →
  workSessions s = sessions_of Work h →
  breakSessions s = sessions_of Break h →
  workSessions (step s ev) = sessions_of Work (history_step (s, h) ev).2 ∧
  breakSessions (step s ev) = sessions_of Break (history_step (s, h) ev).2.
Proof.
  destruct ev as [env a]. unfold init_consistent, step, history_step.
  destruct a; cbn; intros Hinit Hw Hb; try (split; assumption).
  - rewrite !sessions_of_cons. cbn.
    destruct (isBreak s); repeat case_decide; try congruence; lia.
  - split; reflexivity.
  - tauto.
Qed.

(** X3. Along a run from the initial state whose loaded histories are
    consistent, each counter is the number of sessions of its kind in the
    run's history, and the log shows the newest 50 of them: its length is
    the smaller of 50 and the sum of the counters. *)
Theorem counters_count_history evs :
  Forall init_consistent evs →
  let s := run initialState evs in
  workSessions s = sessions_of Work (history evs) ∧
  breakSessions s = sessions_of Break (history evs) ∧
  Z.of_nat (length (sessionLog s))
  = Z.min 50 (workSessions s + breakSessions s).
Proof.
  intros Hall s.
  assert (∀ s0 h0,
    workSessions s0 = sessions_of Work h0 →
    breakSessions s0 = sessions_of Break h0 →
    workSessions (run s0 evs) = sessions_of Work (history_from s0 h0 evs) ∧
    breakSessions (run s0 evs) = sessions_of Break (history_from s0 h0 evs))
    as Hcount.
  { unfold run, history_from.
    induction Hall as [|ev evs Hev _ IH]; intros s0 h0 Hw Hb; [by split|].
    cbn [foldl].
    destruct (step_counts_history s0 h0 ev Hev Hw Hb) as [Hw' Hb'].
    apply (IH _ _ Hw' Hb'). }
  destruct (Hcount initialState [] eq_refl eq_refl) as [Hw Hb].
  split; [exact Hw|]. split; [exact Hb|].
  assert (sessionLog s = take 50 (history evs)) as ->.
  { apply run_log_history; [|reflexivity].
    eapply Forall_impl; [exact Hall|].
    intros [env a]. unfold init_consistent, init_log_bounded.
    destruct a; cbn; tauto. }
  fold s in Hw, Hb. rewrite Hw, Hb, sessions_total, length_take.
  unfold history. lia.
Qed.

Lemma counters_count_history_witness :
  let s :=
    run initialState
      [(sample_env, INIT_STATE 1 0 [sample_entry]);
       (sample_env, PHASE_TRANSITION 25 5 false);
       (sample_env, PHASE_TRANSITION 25 5 false)] in
  workSessions s = 2 ∧ breakSessions s = 1 ∧ length (sessionLog s) = 3%nat.
Proof.
  intros s.
  destruct (counters_count_history
    [(sample_env, INIT_STATE 1 0 [sample_entry]);
     (sample_env, PHASE_TRANSITION 25 5 false);
     (sample_env, PHASE_TRANSITION 25 5 false)]) as (Hw & Hb & Hlen).
  - repeat apply Forall_cons_2; cbn; auto. split; [lia|]. split; reflexivity.
  - fold s in Hw, Hb, Hlen. rewrite Hw, Hb in *. vm_compute in Hlen |- *.
    repeat split.
Defined.

(** ** The callbacks *)

(** X4. The keyboard listener is the one of the first render.  Its [R]
    resets the countdown to 25 minutes whatever work duration is
    configured, where the reset button uses the configured one; its
    space bar shows the focus message also during a break, where the
    start/pause button shows the break message.  Both change the running
    flag, phase and countdown like their buttons otherwise. *)
Theorem keyboard_uses_first_render env c :
  secondsLeft (state (keyboardListener env "KeyR" c)) = 25 * 60 ∧
  secondsLeft (state (resetTimer c env c)) = workMinutes c * 60 ∧
  message (state (keyboardListener env "Space" c)) = msg_focus ∧
  message (state (toggleTimer c env c))
  = (if isBreak (state c) then msg_break_coffee else msg_focus) ∧
  isRunning (state (keyboardListener env "Space" c))
  = isRunning (state (toggleTimer c env c)) ∧
  keyboardListener env "KeyS" c = stopTimer env c.
Proof. repeat split. Qed.

Example keyboard_reset_after_edit :
  let c := handleWorkInputBlur sample_env
             (perform sample_env initialComponent (ChangeWorkInput "50")) in
  workMinutes c = 50 ∧
  secondsLeft (state c) = 3000 ∧
  secondsLeft (state (perform sample_env c ClickReset)) = 3000 ∧
  secondsLeft (state (perform sample_env c (KeyDown "KeyR"))) = 1500.
Proof. vm_compute. repeat split. Qed.

Lemma perform_well_configured env c cmd :
  well_configured c → well_configured (perform env c cmd).
Proof.
  unfold well_configured. intros (Hw & Hb & Hs).
  destruct cmd; cbn; try (repeat split; lia).
  - pose proof (coerced_at_least_1 (workInput c)).
    repeat case_match; cbn; repeat split; lia.
  - pose proof (coerced_at_least_1 (breakInput c)).
    repeat case_match; cbn; repeat split; lia.
  - unfold keyboardListener, handleKeyDown.
    repeat case_match; cbn; repeat split; lia.
  - repeat split; try lia.
    destruct (Z.ltb_spec 0 (secondsLeft (state c))); lia.
  - repeat split; try lia. destruct (isBreak (state c)); cbn; lia.
Qed.

(** X6. Editing the break duration while the work phase is active, or
    while the timer runs, stores the coerced value and leaves the timer
    state as it is. *)
Theorem handleBreakInputBlur_other_phase env c :
  isBreak (state c) = false ∨ isRunning (state c) = true →
  let c' := handleBreakInputBlur env c in
  state c' = state c ∧ workMinutes c' = workMinutes c ∧
  breakMinutes c' = JS.Math_max 1 (or_1 (parseInt (breakInput c))) ∧
  1 ≤ breakMinutes c'.
Proof.
  intros Hother. cbn. split; [|split; [reflexivity|split; [reflexivity|]]].
  - destruct Hother as [-> | ->]; [reflexivity|]. by rewrite andb_false_r.
  - apply coerced_at_least_1.
Qed.

Lemma handleBreakInputBlur_other_phase_witness :
  state (handleBreakInputBlur sample_env initialComponent) = initialState.
Proof.
  destruct (handleBreakInputBlur_other_phase sample_env initialComponent)
    as [Hstate _]; [left; reflexivity | exact Hstate].
Defined.

(** ** The interval handles *)

Lemma clearTimerRef_clears t :
  only_timerRef_active t → active (clearTimerRef t) = ∅.
Proof.
  unfold only_timerRef_active, clearTimerRef. intros Hinv.
  destruct (timerRef t) as [h|] eqn:Href; cbn.
  - apply set_eq. intros h'. rewrite elem_of_difference, elem_of_singleton.
    split; [|set_solver]. intros [Hin Hne]. apply Hinv in Hin. congruence.
  - apply set_eq. intros h'. split; [|set_solver].
    intros Hin. apply Hinv in Hin. discriminate.
Qed.

Lemma clearTimerRef_invariant t :
  only_timerRef_active t → only_timerRef_active (clearTimerRef t).
Proof.
  intros Hinv h. rewrite (clearTimerRef_clears t Hinv). set_solver.
Qed.

Lemma arm_after_clear t :
  only_timerRef_active t →
  active (armTimerRef (clearTimerRef t)) = {[next_handle t]} ∧
  timerRef (armTimerRef (clearTimerRef t)) = Some (next_handle t).
Proof.
  intros Hinv. unfold armTimerRef. cbn [active timerRef].
  rewrite (clearTimerRef_clears t Hinv), union_empty_r_L.
  unfold clearTimerRef. destruct (timerRef t); split; reflexivity.
Qed.

Lemma arm_after_clear_invariant t :
  only_timerRef_active t →
  only_timerRef_active (armTimerRef (clearTimerRef t)).
Proof.
  intros Hinv. destruct (arm_after_clear t Hinv) as [Hact Href].
  intros h. rewrite Hact, Href. set_solver.
Qed.

Lemma timerOp_invariant t op :
  only_timerRef_active t → only_timerRef_active (timerOp t op).
Proof.
  intros Hinv.
  destruct op as [[]| |[]]; cbn;
    unfold countdownEffect, countdownCleanup, transitionTimers;
    auto using clearTimerRef_invariant, arm_after_clear_invariant.
Qed.

(** X7. However the countdown effect, its cleanup and the phase
    transition effect follow one another, at most one interval is in
    use, and it is the one whose handle [timerRef] holds: no second
    interval ticks beside it. *)
Theorem at_most_one_interval (ops : list TimerOp) :
  let t := foldl timerOp noTimers ops in
  (size (active t) ≤ 1)%nat ∧ only_timerRef_active t.
Proof.
  intros t.
  assert (only_timerRef_active t) as Hinv.
  { subst t. induction ops as [|op ops IH] using rev_ind.
    - intros h Hin. cbn in Hin. set_solver.
    - rewrite foldl_app. cbn [foldl]. by apply timerOp_invariant. }
  split; [|exact Hinv].
  destruct (timerRef t) as [h|] eqn:Href.
  - assert (active t ⊆ {[h]}) as Hsub.
    { intros h' Hin. apply Hinv in Hin. set_solver. }
    apply subseteq_size in Hsub. by rewrite size_singleton in Hsub.
  - assert (active t = ∅) as ->.
    { apply set_eq. intros h'. split; [|set_solver].
      intros Hin. apply Hinv in Hin. congruence. }
    rewrite size_empty. lia.
Qed.

(** ** Saving and loading *)

Lemma load_ext JSON_parse ls1 ls2 key fallback :
  accessible ls1 = accessible ls2 →
  items ls1 !! key = items ls2 !! key →
  getLocalStorage JSON_parse ls1 key fallback
  = getLocalStorage JSON_parse ls2 key fallback.
Proof.
  intros Hacc Hitem. unfold getLocalStorage, getLocalStorage_try, getItem.
  by rewrite Hacc, Hitem.
Qed.




Lemma asSessionLog_well_formed entry :
  well_formed_entry entry ↔ is_Some (asSessionLog entry).
Proof.
  unfold well_formed_entry, has_string_field, asSessionLog. split.
  - intros (m & -> & [i ->] & Hty & [d ->] & [tm ->]).
    destruct Hty as [-> | ->]; cbn; eauto.
  - intros [e He]. repeat case_match; try discriminate; subst.
    match goal with H : m !! "type" = Some (JStr ?ty) |- _ =>
      rename ty into kind; rename H into Hkind end.
    exists m. unfold asSessionType in He.
    destruct (String.eqb_spec kind "Work") as [->|_]; [eauto 10|].
    destruct (String.eqb_spec kind "Break") as [->|_]; [eauto 10|].
    discriminate.
Qed.


(** X8. Whatever the store holds and whatever [JSON.parse] makes of it,
    the value loaded for [sessionLog] with the empty fallback fits the
    typed log of the reducer: every entry has its four fields, and the
    kind is one of the two. *)
Theorem loaded_log_always_decodes JSON_parse localStorage :
  ∃ log,
    asSessionLogs (getLocalStorage JSON_parse localStorage "sessionLog"
                     (JArr []))
    = Some log.
Proof.
  assert (asSessionLogs (JArr []) = Some []) as Hempty by reflexivity.
  unfold getLocalStorage, getLocalStorage_try, getItem.
  destruct (accessible localStorage); cbn; [|eauto].
  destruct (items localStorage !! "sessionLog") as [item|]; [|eauto].
  destruct (String.eqb item ""); [eauto|].
  destruct (JSON_parse item) as [[| | | |entries|]|]; cbn; eauto.
  destruct (every_validEntry entries) as ([] & -> & Hb); cbn; [|eauto].
  destruct Hb as [Hwf _]. specialize (Hwf eq_refl).
  apply mapM_is_Some. eapply Forall_impl; [exact Hwf|].
  intros entry. apply asSessionLog_well_formed.
Qed.

(** X9. With a store that is empty or may not be read, the mount effect
    sets the defaults: 25 and 5 minutes, no auto-start, zero counters, an
    empty log, and the idle work phase with a full countdown. *)
Theorem mount_defaults JSON_parse localStorage env c :
  accessible localStorage = false ∨ items localStorage = ∅ →
  initializeFromLocalStorage JSON_parse localStorage env c
  = Some {| workMinutes := 25;
            breakMinutes := 5;
            workInput := "25";
            breakInput := "5";
            autoStart := false;
            state :=
              {| secondsLeft := 25 * 60;
                 isRunning := false;
                 isBreak := false;
                 message := msg_focus;
                 workSessions := 0;
                 breakSessions := 0;
                 sessionLog := [] |} |}.
Proof.
  intros Hnothing.
  assert (∀ key fallback,
    getLocalStorage JSON_parse localStorage key fallback = fallback)
    as Hload.
  { intros key fallback. destruct Hnothing as [Hacc | Hempty].
    - unfold getLocalStorage, getLocalStorage_try, getItem. by rewrite Hacc.
    - apply load_absent. by rewrite Hempty. }
  unfold initializeFromLocalStorage. rewrite !Hload. reflexivity.
Qed.

Lemma mount_defaults_witness :
  ∃ c,
    initializeFromLocalStorage (parse_table []) (storage_of []) sample_env
      sample_component = Some c ∧
    workMinutes c = 25 ∧ isBreak (state c) = false ∧
    secondsLeft (state c) = 1500.
Proof.
  eexists. split.
  - apply mount_defaults. right. reflexivity.
  - repeat split.
Defined.



Section SaverProperties.

Variable JSON_stringify : json → string.
Variable JSON_parse : string → Exc json.
Variable within_quota : gmap string string → bool.

(** A write either goes through or leaves the store alone and shows the
    failure toast. *)
Lemma setLocalStorage_cases key value localStorage :
  (accessible localStorage = true ∧
   setLocalStorage JSON_stringify within_quota key value localStorage
   = ({| accessible := true;
         items := <[key := JSON_stringify value]> (items localStorage) |},
      []))
  ∨ setLocalStorage JSON_stringify within_quota key value localStorage
    = (localStorage, [save_failed key]).
Proof.
  unfold setLocalStorage, setItem.
  destruct (accessible localStorage); [|by right].
  destruct (within_quota _); [by left | by right].
Qed.

Lemma setLocalStorage_quiet key value localStorage :
  (setLocalStorage JSON_stringify within_quota key value localStorage).2 = [] →
  accessible localStorage = true ∧
  (setLocalStorage JSON_stringify within_quota key value localStorage).1
  = {| accessible := true;
       items := <[key := JSON_stringify value]> (items localStorage) |}.
Proof.
  destruct (setLocalStorage_cases key value localStorage)
    as [[Hacc ->] | ->]; [done|discriminate].
Qed.

Lemma setLocalStorage_accessible key value localStorage :
  accessible (setLocalStorage JSON_stringify within_quota key value localStorage).1 = accessible localStorage.
Proof.
  destruct (setLocalStorage_cases key value localStorage)
    as [[Hacc ->] | ->]; [by rewrite Hacc | done].
Qed.

Lemma and_then_quiet (f g : Storage → Storage * list string) localStorage :
  (and_then f g localStorage).2 = [] →
  (f localStorage).2 = [] ∧ (g (f localStorage).1).2 = [] ∧
  (and_then f g localStorage).1 = (g (f localStorage).1).1.
Proof.
  unfold and_then. destruct (f localStorage) as [ls1 shown1]. cbn.
  destruct (g ls1) as [ls2 shown2]. cbn.
  intros [-> ->]%app_eq_nil. done.
Qed.

(** X11. A value saved without a failure toast loads back as it was
    saved, provided [JSON.parse] reads back what [JSON.stringify] wrote
    for it; and saving one key, failed or not, changes nothing about what
    any other key loads as. *)
Theorem save_then_load key value localStorage fallback :
  key ≠ "sessionLog" →
  round_trips JSON_stringify JSON_parse value →
  (setLocalStorage JSON_stringify within_quota key value localStorage).2 = [] →
  getLocalStorage JSON_parse (setLocalStorage JSON_stringify within_quota key value localStorage).1 key fallback
  = value ∧
  ∀ key' fallback', key' ≠ key →
    getLocalStorage JSON_parse (setLocalStorage JSON_stringify within_quota key value localStorage).1 key' fallback'
    = getLocalStorage JSON_parse localStorage key' fallback'.
Proof.
  intros Hkey [Hparse Hne] Hquiet.
  destruct (setLocalStorage_quiet _ _ _ Hquiet) as [Hacc ->]. split.
  - apply (load_unchecked _ _ key (JSON_stringify value)); try done.
    cbn. apply lookup_insert_eq.
  - intros key' fallback' Hne'. apply load_ext; [by rewrite Hacc|].
    cbn. by rewrite lookup_insert_ne.
Qed.

(** X12. A store that may not be written stays as it is: the persistence
    effect changes nothing, breaks nothing, and shows one failure toast
    for each of its six keys. *)
Theorem persist_without_access c localStorage :
  accessible localStorage = false →
  persistEffect JSON_stringify within_quota c localStorage
  = (localStorage,
     save_failed <$> ["workMinutes"; "breakMinutes"; "autoStart";
                      "workSessions"; "breakSessions"; "sessionLog"]).
Proof.
  intros Hacc.
  assert (∀ key value,
    setLocalStorage JSON_stringify within_quota key value localStorage
    = (localStorage, [save_failed key])) as Hfail.
  { intros key value. unfold setLocalStorage, setItem. by rewrite Hacc. }
  unfold persistEffect, and_then. rewrite !Hfail. reflexivity.
Qed.


End SaverProperties.

Lemma save_then_load_witness :
  getLocalStorage (sample_parse [JBool true])
    (setLocalStorage sample_stringify unlimited "autoStart" (JBool true)
       (storage_of [("workMinutes", "50")])).1
    "autoStart" (JBool false)
  = JBool true.
Proof.
  refine (proj1 (save_then_load sample_stringify (sample_parse [JBool true])
                   unlimited "autoStart" (JBool true)
                   (storage_of [("workMinutes", "50")]) (JBool false)
                   _ _ _)).
  - discriminate.
  - split; [vm_compute; reflexivity | vm_compute; discriminate].
  - reflexivity.
Defined.

Lemma persist_without_access_witness :
  (persistEffect sample_stringify unlimited sample_component
     {| accessible := false; items := ∅ |}).1
  = {| accessible := false; items := ∅ |}.
Proof.
  rewrite (persist_without_access sample_stringify unlimited
             sample_component {| accessible := false; items := ∅ |});
    reflexivity.
Defined.


Section HistoryResetProperties.

Variable JSON_stringify : json → string.
Variable JSON_parse : string → Exc json.
Variable within_quota : gmap string string → bool.

(** X14. After a confirmed history reset that showed no failure toast,
    the component has zero counters and an empty log, and so has the
    store: the three history keys load as 0, 0 and the empty log, and
    every other key loads as before. *)
Theorem reset_history_reaches_the_store env c localStorage :
  round_trips JSON_stringify JSON_parse (jsonOfNumber 0) →
  round_trips JSON_stringify JSON_parse (JArr []) →
  let out :=
    confirmResetHistory JSON_stringify within_quota env c localStorage in
  out.2.2 = ["History reset!"] →
  workSessions (state out.1) = 0 ∧ breakSessions (state out.1) = 0 ∧
  sessionLog (state out.1) = [] ∧
  secondsLeft (state out.1) = secondsLeft (state c) ∧
  (∀ fallback,
     getLocalStorage JSON_parse out.2.1 "workSessions" fallback
     = jsonOfNumber 0 ∧
     getLocalStorage JSON_parse out.2.1 "breakSessions" fallback
     = jsonOfNumber 0 ∧
     getLocalStorage JSON_parse out.2.1 "sessionLog" fallback = JArr []) ∧
  (∀ key fallback,
     key ∉ ["workSessions"; "breakSessions"; "sessionLog"] →
     getLocalStorage JSON_parse out.2.1 key fallback
     = getLocalStorage JSON_parse localStorage key fallback).
Proof.
  intros [Hparse0 Hne0] [HparseL HneL] out Hshown.
  subst out. unfold confirmResetHistory in *. cbn [fst snd] in *.
  set (saves :=
    and_then (setLocalStorage JSON_stringify within_quota "workSessions"
                (jsonOfNumber 0))
      (and_then (setLocalStorage JSON_stringify within_quota "breakSessions"
                   (jsonOfNumber 0))
                (setLocalStorage JSON_stringify within_quota "sessionLog"
                   (JArr [])))) in *.
  assert ((saves localStorage).2 = []) as Hquiet.
  { unfold and_then in Hshown. destruct (saves localStorage) as [ls shown].
    cbn in *. by destruct shown as [|? [|]]. }
  assert ((and_then saves (λ ls, (ls, ["History reset!"])) localStorage).1
          = (saves localStorage).1) as ->.
  { unfold and_then. by destruct (saves localStorage). }
  subst saves.
  apply and_then_quiet in Hquiet as (H1 & Hquiet & ->).
  apply and_then_quiet in Hquiet as (H2 & H3 & ->).
  destruct (setLocalStorage_quiet _ _ _ _ _ H1) as [Hacc E1].
  rewrite E1 in *.
  destruct (setLocalStorage_quiet _ _ _ _ _ H2) as [_ E2]. rewrite E2 in *.
  destruct (setLocalStorage_quiet _ _ _ _ _ H3) as [_ E3]. rewrite E3 in *.
  cbn [items accessible]. repeat split.
  - apply (load_unchecked JSON_parse _ "workSessions"
             (JSON_stringify (jsonOfNumber 0))); try done.
    by simplify_map_eq.
  - apply (load_unchecked JSON_parse _ "breakSessions"
             (JSON_stringify (jsonOfNumber 0))); try done.
    by simplify_map_eq.
  - apply (load_well_formed_sessionLog JSON_parse _
             (JSON_stringify (JArr [])) []); try done.
    by simplify_map_eq.
  - intros key fallback Hkey. apply load_ext; [by rewrite Hacc|].
    cbn. rewrite !not_elem_of_cons in Hkey.
    destruct Hkey as (? & ? & ? & _). by rewrite !lookup_insert_ne.
Qed.

End HistoryResetProperties.

Lemma reset_history_reaches_the_store_witness :
  let out :=
    confirmResetHistory sample_stringify unlimited sample_env
      sample_component
      (storage_of [("workSessions", "3"); ("workMinutes", "50")]) in
  workSessions (state out.1) = 0 ∧
  getLocalStorage (sample_parse [jsonOfNumber 0; JArr []; jsonOfNumber 50])
    out.2.1 "workSessions" (JNum (number_of_Z 7))
  = jsonOfNumber 0.
Proof.
  intros out.
  destruct (reset_history_reaches_the_store sample_stringify
              (sample_parse [jsonOfNumber 0; JArr []; jsonOfNumber 50])
              unlimited sample_env sample_component
              (storage_of [("workSessions", "3"); ("workMinutes", "50")]))
    as (Hw & _ & _ & _ & Hload & _).
  - split; [vm_compute; reflexivity | vm_compute; discriminate].
  - split; [vm_compute; reflexivity | vm_compute; discriminate].
  - vm_compute. reflexivity.
  - split; [exact Hw|]. apply Hload.
Defined.

(** ** The theme *)

Section ThemeProperties.

Variable JSON_stringify : json → string.
Variable within_quota : gmap string string → bool.

(** X15. The theme is written through [JSON.stringify], which puts the
    name in double quotes, and read back raw and compared with the bare
    names.  So once a theme has been saved (by this effect or by the
    theme switch), the next start does not find it: the theme follows
    the system preference, whichever theme was saved. *)
Theorem saved_theme_is_not_restored prefersDark theme localStorage :
  (∀ t, JSON_stringify (JStr (Theme_text t))
        = quote +:+ Theme_text t +:+ quote) →
  (setLocalStorage JSON_stringify within_quota "theme"
     (JStr (Theme_text theme)) localStorage).2 = [] →
  ∃ out,
    themeInitEffect JSON_stringify within_quota prefersDark
      (setLocalStorage JSON_stringify within_quota "theme"
         (JStr (Theme_text theme)) localStorage).1
    = Return (if prefersDark then dark else light, prefersDark, out).
Proof.
  intros Hquoted Hquiet.
  destruct (setLocalStorage_quiet _ _ _ _ _ Hquiet) as [_ ->].
  unfold themeInitEffect, getItem. cbn [accessible items mbind Exc_bind].
  rewrite lookup_insert_eq, Hquoted.
  destruct theme, prefersDark; cbn; eauto.
Qed.

(** A bare name in the store, as nothing in this program writes it, is
    what the effect does recognise. *)
Lemma bare_theme_is_recognised prefersDark theme localStorage :
  accessible localStorage = true →
  items localStorage !! "theme" = Some (Theme_text theme) →
  ∃ out,
    themeInitEffect JSON_stringify within_quota prefersDark localStorage
    = Return (theme, match theme with dark => true | light => false end,
              out).
Proof.
  intros Hacc Hitem. unfold themeInitEffect, getItem.
  rewrite Hacc. cbn [mbind Exc_bind]. rewrite Hitem.
  destruct theme; cbn; eauto.
Qed.

End ThemeProperties.

Lemma saved_theme_is_not_restored_witness :
  ∃ out,
    themeInitEffect sample_stringify unlimited false
      (setLocalStorage sample_stringify unlimited "theme"
         (JStr (Theme_text dark)) (storage_of [])).1
    = Return (light, false, out).
Proof.
  apply (saved_theme_is_not_restored sample_stringify unlimited false dark
           (storage_of [])).
  - intros []; reflexivity.
  - reflexivity.
Defined.

(** ** The phase transition effect *)

Section TransitionEffectProperties.

Variable JSON_stringify : json → string.
Variable within_quota : gmap string string → bool.

(** X16. When the countdown of a running timer is over and the guard
    flag is clear, the effect dispatches exactly one [PHASE_TRANSITION]
    with the configured values and leaves the guard flag clear.  What it
    saves at once is what the reducer computes from the same readings:
    the two counters and the log of the next state.  And an interval is
    in use afterwards exactly when the next state is running. *)
Theorem transition_effect_agrees_with_reducer env c w :
  secondsLeft (state c) ≤ 0 →
  isRunning (state c) = true →
  isLoggingRef w = false →
  only_timerRef_active (timers w) →
  let action :=
    PHASE_TRANSITION (workMinutes c) (breakMinutes c) (autoStart c) in
  let next := timerReducer env (state c) action in
  let saves :=
    and_then
      (setLocalStorage JSON_stringify within_quota "workSessions"
         (jsonOfNumber (workSessions next)))
      (and_then
         (setLocalStorage JSON_stringify within_quota "breakSessions"
            (jsonOfNumber (breakSessions next)))
         (setLocalStorage JSON_stringify within_quota "sessionLog"
            (jsonOfLog (sessionLog next)))) in
  let out := phaseTransitionEffect JSON_stringify within_quota env c w in
  out.2 = [action] ∧
  isLoggingRef out.1 = false ∧
  storage out.1 = (saves (storage w)).1 ∧
  toasts out.1 = toasts w ++ (saves (storage w)).2 ∧
  active (timers out.1)
  = (if isRunning next then {[next_handle (timers w)]} else ∅).
Proof.
  intros Hover Hrun Hflag Htimers action next saves out.
  subst out. unfold phaseTransitionEffect.
  rewrite Hrun, Hflag. destruct (Z.leb_spec (secondsLeft (state c)) 0);
    [|lia]. cbn [andb negb].
  assert (workSessions next
          = workSessions (state c) + (if isBreak (state c) then 0 else 1))
    as Hw.
  { subst next action. cbn. destruct (isBreak (state c));
      case_decide; try congruence; lia. }
  assert (breakSessions next
          = breakSessions (state c) + (if isBreak (state c) then 1 else 0))
    as Hb.
  { subst next action. cbn. destruct (isBreak (state c));
      case_decide; try congruence; lia. }
  subst saves. cbv zeta. rewrite Hw, Hb.
  change (sessionLog next)
    with (newEntry env (state c) (workMinutes c) (breakMinutes c)
            :: take 49 (sessionLog (state c))).
  match goal with |- context [and_then ?f ?g (storage w)] =>
    destruct (and_then f g (storage w)) as [storage' shown] end.
  cbn [fst snd storage toasts isLoggingRef timers].
  repeat split.
  unfold transitionTimers. subst next action. cbn [isRunning timerReducer].
  destruct (isBreak (state c)), (autoStart c); cbn [negb orb andb].
  - pose proof (clearTimerRef_invariant _ Htimers) as Hinv.
    destruct (arm_after_clear _ Hinv) as [-> _].
    unfold clearTimerRef. by destruct (timerRef (timers w)).
  - by apply clearTimerRef_clears.
  - pose proof (clearTimerRef_invariant _ Htimers) as Hinv.
    destruct (arm_after_clear _ Hinv) as [-> _].
    unfold clearTimerRef. by destruct (timerRef (timers w)).
  - pose proof (clearTimerRef_invariant _ Htimers) as Hinv.
    destruct (arm_after_clear _ Hinv) as [-> _].
    unfold clearTimerRef. by destruct (timerRef (timers w)).
Qed.

(** While the countdown is above 0, or the timer is paused, the effect
    does nothing at all: no action, no write, no interval touched. *)
Lemma transition_effect_waits env c w :
  0 < secondsLeft (state c) ∨ isRunning (state c) = false →
  phaseTransitionEffect JSON_stringify within_quota env c w = (w, []).
Proof.
  intros Hwait. unfold phaseTransitionEffect.
  destruct Hwait as [Hpos | ->].
  - destruct (Z.leb_spec (secondsLeft (state c)) 0); [lia|reflexivity].
  - by rewrite andb_false_r.
Qed.

End TransitionEffectProperties.

Lemma transition_effect_agrees_with_reducer_witness :
  let out :=
    phaseTransitionEffect sample_stringify unlimited sample_env break_over
      sample_world in
  out.2 = [PHASE_TRANSITION 50 10 true] ∧
  items (storage out.1) !! "breakSessions" = Some "3" ∧
  active (timers out.1) = {[1%positive]}.
Proof.
  intros out.
  destruct (transition_effect_agrees_with_reducer sample_stringify unlimited
              sample_env break_over sample_world)
    as (Hact & _ & Hstore & _ & Htimers).
  - cbn. lia.
  - reflexivity.
  - reflexivity.
  - intros h Hin. cbn in Hin. set_solver.
  - fold out in Hact, Hstore, Htimers.
    rewrite Hact, Hstore, Htimers. repeat split.
Defined.

Example transition_effect_waits_mid_break :
  phaseTransitionEffect sample_stringify unlimited sample_env
    sample_component sample_world
  = (sample_world, []).
Proof. reflexivity. Qed.

(** ** [parseInt] reads back what [String] prints *)

Lemma bytes_String c s :
  bytes (String c s) = Z.of_nat (nat_of_ascii c) :: bytes s.
Proof. reflexivity. Qed.

Lemma pretty_N_char_byte (d : N) :
  (d < 10)%N →
  Z.of_nat (nat_of_ascii (pretty_N_char d)) = 48 + Z.of_N d.
Proof.
  intros Hd.
  assert (d = 0 ∨ d = 1 ∨ d = 2 ∨ d = 3 ∨ d = 4 ∨ d = 5 ∨ d = 6 ∨ d = 7
          ∨ d = 8 ∨ d = 9)%N as Hcases by lia.
  repeat destruct Hcases as [-> | Hcases]; try subst d; reflexivity.
Qed.

Lemma digits_step acc (d : Z) r :
  0 ≤ d < 10 →
  digits 10 acc ((48 + d) :: r)
  = digits 10 (Some (10 * default 0 acc + d)) r.
Proof.
  intros Hd. cbn [digits]. unfold digitValue.
  destruct (Z.leb_spec 48 (48 + d)); [|lia].
  destruct (Z.leb_spec (48 + d) 57); [|lia]. cbn.
  destruct (Z.ltb_spec (48 + d - 48) 10); [|lia].
  do 3 f_equal. lia.
Qed.

(** The digits printed for [x] are read back as [x]. *)
Lemma digits_pretty_N_go (x : N) : ∀ s acc,
  (0 < x)%N → default 0 acc = 0 →
  digits 10 acc (bytes (pretty_N_go x s))
  = digits 10 (Some (Z.of_N x)) (bytes s).
Proof.
  induction (N.lt_wf_0 x) as [x _ IH]. intros s acc Hpos Hacc.
  rewrite pretty_N_go_step by done.
  assert (x `div` 10 < x)%N as Hless by (apply N.div_lt; lia).
  pose proof (N.div_mod x 10 ltac:(lia)) as Hx.
  pose proof (N.mod_lt x 10 ltac:(lia)) as Hmod.
  remember (x `div` 10)%N as q eqn:Hq.
  remember (x `mod` 10)%N as m eqn:Hm. clear Hq Hm.
  destruct (decide (q = 0)%N) as [-> | Hbig].
  - rewrite pretty_N_go_0, bytes_String, pretty_N_char_byte by done.
    rewrite digits_step by lia. rewrite Hacc. do 2 f_equal. lia.
  - rewrite IH; [|done|lia|done].
    rewrite bytes_String, pretty_N_char_byte by done.
    rewrite digits_step by lia. do 2 f_equal. cbn. lia.
Qed.

(** What is printed for a positive number starts with a digit from 1 to
    9. *)
Lemma pretty_N_go_head (x : N) : ∀ s,
  (0 < x)%N →
  ∃ d r, 49 ≤ d ≤ 57 ∧ bytes (pretty_N_go x s) = d :: r.
Proof.
  induction (N.lt_wf_0 x) as [x _ IH]. intros s Hpos.
  rewrite pretty_N_go_step by done.
  assert (x `div` 10 < x)%N as Hless by (apply N.div_lt; lia).
  pose proof (N.div_mod x 10 ltac:(lia)) as Hx.
  pose proof (N.mod_lt x 10 ltac:(lia)) as Hmod.
  remember (x `div` 10)%N as q eqn:Hq.
  remember (x `mod` 10)%N as m eqn:Hm. clear Hq Hm.
  destruct (decide (q = 0)%N) as [-> | Hbig].
  - rewrite pretty_N_go_0, bytes_String, pretty_N_char_byte by done.
    eexists _, _. split; [|reflexivity]. lia.
  - apply IH; [done | lia].
Qed.

Lemma parseInt_unsigned s d r :
  49 ≤ d ≤ 57 → bytes s = d :: r →
  parseInt s = digits 10 None (d :: r).
Proof.
  intros Hd Hbytes. unfold parseInt. rewrite Hbytes.
  assert (d = 49 ∨ d = 50 ∨ d = 51 ∨ d = 52 ∨ d = 53 ∨ d = 54 ∨ d = 55
          ∨ d = 56 ∨ d = 57) as Hcases by lia.
  repeat destruct Hcases as [-> | Hcases]; try subst d; cbn [trimStart];
    (destruct (digits 10 None _); cbn; [f_equal; lia | reflexivity]).
Qed.

Lemma parseInt_negative s d r :
  49 ≤ d ≤ 57 → bytes s = 45 :: d :: r →
  parseInt s = Z.opp <$> digits 10 None (d :: r).
Proof.
  intros Hd Hbytes. unfold parseInt. rewrite Hbytes.
  assert (d = 49 ∨ d = 50 ∨ d = 51 ∨ d = 52 ∨ d = 53 ∨ d = 54 ∨ d = 55
          ∨ d = 56 ∨ d = 57) as Hcases by lia.
  repeat destruct Hcases as [-> | Hcases]; try subst d; cbn [trimStart];
    (destruct (digits 10 None _); cbn; [f_equal; lia | reflexivity]).
Qed.

Lemma parseInt_pretty (n : Z) : parseInt (JS.String n) = Some n.
Proof.
  unfold JS.String. destruct n as [|p|p]; [reflexivity|..].
  - change (pretty (Z.pos p)) with (pretty_N_go (N.pos p) "").
    destruct (pretty_N_go_head (N.pos p) "") as (d & r & Hd & Hbytes);
      [done|].
    rewrite (parseInt_unsigned _ d r Hd Hbytes), <- Hbytes.
    rewrite digits_pretty_N_go by done. reflexivity.
  - change (pretty (Z.neg p)) with ("-" +:+ pretty_N_go (N.pos p) "").
    destruct (pretty_N_go_head (N.pos p) "") as (d & r & Hd & Hbytes);
      [done|].
    rewrite (parseInt_negative _ d r Hd); [|cbn; by rewrite <- Hbytes].
    rewrite <- Hbytes, digits_pretty_N_go by done. reflexivity.
Qed.

(** X18. [parseInt] reads every integer of magnitude up to 2^53 (where
    [String] prints all the digits) back from its printed form: the text
    the handlers put into the duration inputs is read as the duration it
    shows. *)
Theorem parseInt_String (n : Z) :
  Z.abs n ≤ max_exact → parseInt (JS.String n) = Some n.
Proof. intros _. apply parseInt_pretty. Qed.

Lemma parseInt_String_witness :
  parseInt (JS.String (-25)) = Some (-25) ∧
  parseInt (JS.String 9007199254740992) = Some 9007199254740992.
Proof.
  split; apply parseInt_String; vm_compute; discriminate.
Defined.

(** X19. When the input stands for a duration of at most 2^53 seconds,
    leaving the work input twice is the same as leaving it once: the
    input then shows the coerced duration, which coerces to itself. *)
Theorem handleWorkInputBlur_idempotent env c :
  JS.Math_max 1 (or_1 (parseInt (workInput c))) * 60 ≤ max_exact →
  handleWorkInputBlur env (handleWorkInputBlur env c)
  = handleWorkInputBlur env c.
Proof.
  intros _.
  set (d := JS.Math_max 1 (or_1 (parseInt (workInput c)))).
  assert (1 ≤ d) as Hd by apply coerced_at_least_1.
  assert (JS.Math_max 1 (or_1 (parseInt (JS.String d))) = d) as Hfix.
  { rewrite parseInt_pretty. unfold or_1, JS.Math_max.
    destruct (Z.eqb_spec d 0); lia. }
  unfold handleWorkInputBlur at 1 3.
  cbn [workMinutes breakMinutes workInput breakInput autoStart state
       handleWorkInputBlur].
  fold d. rewrite Hfix. f_equal.
  destruct (isBreak (state c)) eqn:Hb, (isRunning (state c)) eqn:Hr;
    cbn; rewrite ?Hb, ?Hr; reflexivity.
Qed.

Lemma handleWorkInputBlur_idempotent_witness :
  let c := perform sample_env initialComponent (ChangeWorkInput "50 min") in
  handleWorkInputBlur sample_env (handleWorkInputBlur sample_env c)
  = handleWorkInputBlur sample_env c.
Proof.
  intros c. apply (handleWorkInputBlur_idempotent sample_env c).
  vm_compute. discriminate.
Defined.

(** ** What the user can do, within the exact range *)

Lemma coerced_String d :
  1 ≤ d → JS.Math_max 1 (or_1 (parseInt (JS.String d))) = d.
Proof.
  intros Hd. rewrite parseInt_pretty. unfold or_1, JS.Math_max.
  destruct (Z.eqb_spec d 0); lia.
Qed.

Lemma perform_within_exact_range env c cmd :
  well_configured c → within_exact_range c →
  types_within_exact_range cmd →
  within_exact_range (perform env c cmd).
Proof.
  unfold well_configured, within_exact_range.
  change max_exact with 9007199254740992.
  intros (Hw & Hb & Hs) (Hwx & Hbx & Hsx & Hwi & Hbi) Hcmd.
  destruct cmd; cbn [perform types_within_exact_range] in *.
  - cbn. repeat split; assumption.
  - cbn. repeat split; assumption.
  - pose proof (coerced_at_least_1 (workInput c)) as Hd.
    unfold handleWorkInputBlur.
    cbn [workMinutes breakMinutes workInput breakInput state].
    rewrite coerced_String by exact Hd.
    repeat split; try assumption.
    destruct (negb (isBreak (state c)) && negb (isRunning (state c)));
      cbn; assumption.
  - pose proof (coerced_at_least_1 (breakInput c)) as Hd.
    unfold handleBreakInputBlur.
    cbn [workMinutes breakMinutes workInput breakInput state].
    rewrite coerced_String by exact Hd.
    repeat split; try assumption.
    destruct (isBreak (state c) && negb (isRunning (state c)));
      cbn; assumption.
  - cbn. repeat split; assumption.
  - cbn. repeat split; assumption.
  - cbn. repeat split; assumption.
  - cbn. repeat split; assumption.
  - unfold keyboardListener, handleKeyDown.
    repeat case_match; cbn; repeat split; try assumption; lia.
  - cbn. repeat split; try assumption.
    destruct (Z.ltb_spec 0 (secondsLeft (state c))); lia.
  - cbn. repeat split; try assumption.
    destruct (isBreak (state c)); cbn; assumption.
Qed.

(** X5. The durations are integers of at least 1 minute, the countdown
    is an integer that is not negative, and they and what the inputs
    show have at most 2^53 seconds.  Then nothing the user does (typing
    durations of at most 2^53 seconds into the inputs and leaving them,
    the buttons, the keys, the auto-start box) and no tick or phase
    transition lead to a duration below 1, a negative countdown or a
    value beyond 2^53 seconds. *)
Theorem commands_keep_well_configured c (cmds : list (Env * Command)) :
  well_configured c → within_exact_range c →
  Forall (λ ec : Env * Command, types_within_exact_range ec.2) cmds →
  well_configured (foldl (λ c ec, perform ec.1 c ec.2) c cmds) ∧
  within_exact_range (foldl (λ c ec, perform ec.1 c ec.2) c cmds).
Proof.
  intros Hc Hx Hcmds. revert c Hc Hx.
  induction Hcmds as [|[env cmd] cmds Hcmd _ IH]; intros c Hc Hx;
    [by split|].
  cbn [foldl]. apply IH.
  - by apply perform_well_configured.
  - by apply perform_within_exact_range.
Qed.

Lemma commands_keep_well_configured_witness :
  well_configured
    (foldl (λ c ec, perform ec.1 c ec.2) initialComponent
       [(sample_env, ChangeWorkInput "-3"); (sample_env, BlurWorkInput);
        (sample_env, ChangeBreakInput "abc"); (sample_env, BlurBreakInput);
        (sample_env, ClickStartPause); (sample_env, IntervalFires)]).
Proof.
  apply commands_keep_well_configured.
  - unfold well_configured. cbn. lia.
  - unfold within_exact_range. vm_compute. repeat split; discriminate.
  - apply Forall_cons_2; [vm_compute; discriminate|].
    apply Forall_cons_2; [exact I|].
    apply Forall_cons_2; [vm_compute; discriminate|].
    apply Forall_cons_2; [exact I|].
    apply Forall_cons_2; [exact I|].
    apply Forall_cons_2; [exact I|].
    apply Forall_nil_2.
Defined.

(** ** [formatTime] *)

Lemma bytes_app s1 s2 : bytes (s1 +:+ s2) = bytes s1 ++ bytes s2.
Proof.
  induction s1 as [|c s1 IH]; [reflexivity|].
  change (String c s1 +:+ s2) with (String c (s1 +:+ s2)).
  rewrite !bytes_String, IH. reflexivity.
Qed.

Lemma pretty_N_go_app (x : N) : ∀ s rest,
  pretty_N_go x s +:+ rest = pretty_N_go x (s +:+ rest).
Proof.
  induction (N.lt_wf_0 x) as [x _ IH]. intros s rest.
  destruct (decide (x = 0)%N) as [-> | Hpos]; [by rewrite !pretty_N_go_0|].
  rewrite (pretty_N_go_step x s), (pretty_N_go_step x (s +:+ rest)) by lia.
  rewrite IH by (apply N.div_lt; lia). reflexivity.
Qed.

Lemma pretty_N_go_length (x : N) : ∀ s,
  (String.length s ≤ String.length (pretty_N_go x s))%nat.
Proof.
  induction (N.lt_wf_0 x) as [x _ IH]. intros s.
  destruct (decide (x = 0)%N) as [-> | Hpos]; [by rewrite pretty_N_go_0|].
  rewrite pretty_N_go_step by lia.
  etrans; [|apply IH, N.div_lt; lia]. cbn. lia.
Qed.

(** Two digits for the numbers below 100, checked one by one. *)
Lemma pad_below_100 v :
  0 ≤ v < 100 → String.length (JS.padStart 2 "0" (JS.String v)) = 2%nat.
Proof.
  intros Hv.
  assert (Forall
            (λ v, String.length (JS.padStart 2 "0" (JS.String v)) = 2%nat)
            (seqZ 0 100)) as Hall.
  { apply (bool_decide_unpack _). vm_compute. exact I. }
  rewrite Forall_seqZ in Hall. apply Hall. lia.
Qed.

Lemma pad_from_10 v :
  10 ≤ v → JS.padStart 2 "0" (JS.String v) = JS.String v.
Proof.
  intros Hv. unfold JS.padStart, JS.String.
  destruct v as [|p|p]; try lia.
  change (pretty (Z.pos p)) with (pretty_N_go (N.pos p) "").
  assert (2 ≤ String.length (pretty_N_go (N.pos p) ""))%nat as Hlen.
  { rewrite 2!pretty_N_go_step.
    - etrans; [|apply pretty_N_go_length]. cbn. lia.
    - apply N.div_str_pos. lia.
    - lia. }
  replace (2 - String.length (pretty_N_go (N.pos p) ""))%nat with 0%nat
    by lia.
  reflexivity.
Qed.

Lemma pad_below_10 v :
  0 ≤ v < 10 →
  bytes (JS.padStart 2 "0" (JS.String v)) = [48 + 0; 48 + v].
Proof.
  intros Hv.
  assert (v = 0 ∨ v = 1 ∨ v = 2 ∨ v = 3 ∨ v = 4 ∨ v = 5 ∨ v = 6 ∨ v = 7
          ∨ v = 8 ∨ v = 9) as Hcases by lia.
  repeat destruct Hcases as [-> | Hcases]; try subst v; reflexivity.
Qed.

Lemma parseInt_leading_zero s d r :
  48 ≤ d ≤ 57 → bytes s = (48 + 0) :: d :: r →
  parseInt s = digits 10 None ((48 + 0) :: d :: r).
Proof.
  intros Hd Hbytes. unfold parseInt. rewrite Hbytes.
  assert (d = 48 ∨ d = 49 ∨ d = 50 ∨ d = 51 ∨ d = 52 ∨ d = 53 ∨ d = 54
          ∨ d = 55 ∨ d = 56 ∨ d = 57) as Hcases by lia.
  repeat destruct Hcases as [-> | Hcases]; try subst d;
    change (48 + 0) with 48; cbn [trimStart];
    (destruct (digits 10 None _); cbn; [f_equal; lia | reflexivity]).
Qed.

(** [parseInt] reads the padded number back, whatever follows it that is
    not a digit. *)
Lemma parseInt_pad v rest :
  0 ≤ v →
  digits 10 (Some v) (bytes rest) = Some v →
  parseInt (JS.padStart 2 "0" (JS.String v) +:+ rest) = Some v.
Proof.
  intros Hv Hrest. destruct (decide (v < 10)) as [Hsmall | Hbig].
  - rewrite (parseInt_leading_zero _ (48 + v) (bytes rest));
      [|lia|by rewrite bytes_app, pad_below_10 by lia].
    rewrite !digits_step by lia. cbn [default].
    replace (10 * (10 * 0 + 0) + v) with v by lia. exact Hrest.
  - rewrite pad_from_10 by lia. unfold JS.String.
    destruct v as [|p|p]; try lia.
    change (pretty (Z.pos p)) with (pretty_N_go (N.pos p) "").
    rewrite pretty_N_go_app.
    destruct (pretty_N_go_head (N.pos p) ("" +:+ rest))
      as (d & r & Hd & Hbytes); [done|].
    rewrite (parseInt_unsigned _ d r Hd Hbytes), <- Hbytes.
    rewrite digits_pretty_N_go by done. exact Hrest.
Qed.

(** For a time that is not negative, [parseInt] of the text shown is the
    number of whole minutes. *)
Lemma parseInt_formatTime t :
  0 ≤ t → parseInt (formatTime t) = Some (t `div` 60).
Proof.
  intros Ht. unfold formatTime, JS.floor_div.
  apply parseInt_pad; [apply Z.div_pos; lia|].
  rewrite bytes_app. reflexivity.
Qed.

(** X20. Different times that are not negative are shown as different
    texts. *)
Theorem formatTime_inj t1 t2 :
  0 ≤ t1 → 0 ≤ t2 → formatTime t1 = formatTime t2 → t1 = t2.
Proof.
  intros H1 H2 Heq.
  assert (t1 `div` 60 = t2 `div` 60) as Hmin.
  { apply (f_equal parseInt) in Heq.
    rewrite !parseInt_formatTime in Heq by done. congruence. }
  unfold formatTime, JS.floor_div, JS.modulo in Heq. rewrite Hmin in Heq.
  do 2 apply (inj (String.app _)) in Heq.
  assert (t1 `rem` 60 = t2 `rem` 60) as Hsec.
  { assert (∀ t, 0 ≤ t →
      parseInt (JS.padStart 2 "0" (JS.String (t `rem` 60)) +:+ "")
      = Some (t `rem` 60)) as Hread.
    { intros t Ht. apply parseInt_pad; [|reflexivity].
      apply Z.rem_nonneg; lia. }
    apply (f_equal (λ s, parseInt (s +:+ ""))) in Heq.
    rewrite !Hread in Heq by done. congruence. }
  rewrite !Z.rem_mod_nonneg in Hsec by lia.
  rewrite (Z.div_mod t1 60), (Z.div_mod t2 60) by lia. congruence.
Qed.

Lemma length_append s1 s2 :
  String.length (s1 +:+ s2) = (String.length s1 + String.length s2)%nat.
Proof.
  induction s1 as [|c s1 IH]; [reflexivity|].
  change (String c s1 +:+ s2) with (String c (s1 +:+ s2)).
  cbn [String.length]. by rewrite IH.
Qed.

(** X21. Below 100 minutes the text shown has exactly five characters,
    [MM:SS]; a whole number of minutes of at most 2^53 seconds is shown
    as the minutes, padded to two characters, and [:00]. *)
Theorem formatTime_shape t :
  (0 ≤ t < 6000 → String.length (formatTime t) = 5%nat) ∧
  (0 ≤ t * 60 ≤ max_exact →
   formatTime (t * 60) = JS.padStart 2 "0" (JS.String t) +:+ ":00").
Proof.
  split; [|intros _].
  - intros Ht. unfold formatTime, JS.floor_div, JS.modulo.
    assert (0 ≤ t `div` 60 < 100) as Hmin.
    { split; [apply Z.div_pos; lia|]. apply Z.div_lt_upper_bound; lia. }
    assert (0 ≤ t `rem` 60 < 100) as Hsec.
    { rewrite Z.rem_mod_nonneg by lia.
      pose proof (Z.mod_pos_bound t 60). lia. }
    rewrite !length_append, !pad_below_100 by done. reflexivity.
  - unfold formatTime, JS.floor_div, JS.modulo.
    rewrite Z.div_mul by lia. rewrite Z.rem_mul by lia. reflexivity.
Qed.

Lemma formatTime_inj_witness : 89 + 1 = 90.
Proof. apply formatTime_inj; [lia | lia | reflexivity]. Defined.

Lemma formatTime_shape_witness :
  String.length (formatTime 1500) = 5%nat ∧
  formatTime (120 * 60) = "120:00".
Proof.
  destruct (formatTime_shape 1500) as [Hlen _].
  destruct (formatTime_shape 120) as [_ Hwhole].
  split; [apply Hlen; lia | rewrite Hwhole; [reflexivity|]].
  vm_compute. split; discriminate.
Defined.

(** ** Ticks and the phase transition effect together *)

Lemma ticks_on_component env c n :
  foldl (λ c ec, perform ec.1 c ec.2) c (replicate n (env, IntervalFires))
  = {| workMinutes := workMinutes c;
       breakMinutes := breakMinutes c;
       workInput := workInput c;
       breakInput := breakInput c;
       autoStart := autoStart c;
       state := run (state c) (replicate n (env, TICK)) |}.
Proof.
  induction n as [|n IH]; [by destruct c|].
  replace (S n) with (n + 1)%nat by lia.
  rewrite !replicate_add, foldl_app, run_app, IH. reflexivity.
Qed.

Section CountdownToTransition.

Variable JSON_stringify : json → string.
Variable within_quota : gmap string string → bool.

(** X17. A running timer with [n > 0] seconds left: after fewer than [n]
    ticks the phase transition effect does nothing, and after [n] ticks
    or more it dispatches the one [PHASE_TRANSITION] of the configured
    durations (the guard flag being clear, as every run of the effect
    leaves it). *)
Theorem transition_after_last_tick env c w (k : nat) :
  isRunning (state c) = true →
  0 < secondsLeft (state c) →
  isLoggingRef w = false →
  let c' :=
    foldl (λ c ec, perform ec.1 c ec.2) c
      (replicate k (env, IntervalFires)) in
  (phaseTransitionEffect JSON_stringify within_quota env c' w).2
  = (if decide (Z.of_nat k < secondsLeft (state c)) then []
     else [PHASE_TRANSITION (workMinutes c) (breakMinutes c) (autoStart c)]).
Proof.
  intros Hrun Hpos Hflag c'. subst c'.
  rewrite ticks_on_component, run_ticks by lia.
  unfold phaseTransitionEffect.
  cbn [state secondsLeft isRunning workMinutes breakMinutes autoStart].
  rewrite Hrun, Hflag. cbn [andb negb].
  case_decide.
  - destruct (Z.leb_spec (Z.max 0 (secondsLeft (state c) - Z.of_nat k)) 0);
      [lia | reflexivity].
  - destruct (Z.leb_spec (Z.max 0 (secondsLeft (state c) - Z.of_nat k)) 0);
      [|lia].
    cbn [andb]. by destruct (and_then _ _ _).
Qed.

End CountdownToTransition.

Lemma transition_after_last_tick_witness :
  (phaseTransitionEffect sample_stringify unlimited sample_env
     (foldl (λ c ec, perform ec.1 c ec.2) sample_component
        (replicate 416 (sample_env, IntervalFires)))
     sample_world).2 = [] ∧
  (phaseTransitionEffect sample_stringify unlimited sample_env
     (foldl (λ c ec, perform ec.1 c ec.2) sample_component
        (replicate 417 (sample_env, IntervalFires)))
     sample_world).2 = [PHASE_TRANSITION 50 10 true].
Proof.
  split.
  - rewrite (transition_after_last_tick sample_stringify unlimited
               sample_env sample_component sample_world 416);
      [reflexivity | reflexivity | cbn; lia | reflexivity].
  - rewrite (transition_after_last_tick sample_stringify unlimited
               sample_env sample_component sample_world 417);
      [reflexivity | reflexivity | cbn; lia | reflexivity].
Defined.

(** ** What the loader and the mount effect always do *)

(** X22. Whatever the store and [JSON.parse] do, [getLocalStorage]
    returns either the fallback or exactly the value [JSON.parse] made of
    the stored text; it makes up nothing of its own. *)
Theorem load_is_fallback_or_parsed JSON_parse localStorage key fallback :
  getLocalStorage JSON_parse localStorage key fallback = fallback ∨
  ∃ item,
    items localStorage !! key = Some item ∧
    JSON_parse item
    = Return (getLocalStorage JSON_parse localStorage key fallback).
Proof.
  unfold getLocalStorage, getLocalStorage_try, getItem.
  destruct (accessible localStorage); cbn; [|by left].
  destruct (items localStorage !! key) as [item|]; [|by left].
  destruct (String.eqb item ""); [by left|].
  destruct (JSON_parse item) as [v|] eqn:Hparse; cbn; [|by left].
  destruct (String.eqb key "sessionLog").
  - destruct v; try by left.
    destruct (every validEntry l) as [[]|]; cbn; eauto.
  - eauto.
Qed.



(** ** One phase transition for one crossing (lines 43-47, 292-360) *)

Section OncePerCrossing.

Variable JSON_stringify : json → string.
Variable within_quota : gmap string string → bool.












End OncePerCrossing.


